(** * Smart Email Assistant: the React front end, embedded and verified

    The development follows the source tree of the front end:

    - [Js]            the fragment of JavaScript the components rely on
                      (values, truthiness, strings as UTF-16 code units,
                      [Array.prototype.sort], completions);
    - [Api]           [frontend/src/services/api.js];
    - [EmailModal]    the component [App] imports from
                      [./components/EmailModel]; its text follows that of
                      [App] in [frontend/src/App.js];
    - [App]           [frontend/src/App.js];
    - [Sidebar]       [frontend/src/components/Sidebar.js];
    - [Dashboard]     [frontend/src/components/Dashboard.js];
    - [DebugDashboard][frontend/src/components/Debugdashboard.js];
    - [Core]          the record store operation [regenerate_draft], whose
                      implementation (the Flask back end) is not part of the
                      source tree at hand.

    Event handlers are [async] functions.  A handler is embedded as a
    function of the component state and of the outcome of every request it
    awaits; it returns the state after the handler has run to completion
    together with the trace of effects (requests, toasts, callbacks) in the
    order the handler performs them. *)

From Stdlib Require Import ZArith List Bool Ascii String Lia Sorted.
From Stdlib Require Import DecimalString.
From stdpp Require Import gmap strings list fin_maps.

Set Warnings "-register-all".
Local Open Scope Z_scope.

(* ===================================================================== *)
(** * JavaScript fragment *)
(* ===================================================================== *)

Module Js.

(** A JavaScript string is a sequence of UTF-16 code units. *)
Definition jsstring := list N.

(** Source literals are written in Basic Latin; [js] turns such a literal
    into its code units. *)
Definition js (s : string) : jsstring :=
  map N_of_ascii (list_ascii_of_string s).

(** Numbers as far as the components compute with them: integral values
    (time values, table ranks, lengths) and [NaN]. *)
Inductive number :=
| NaN
| Num (z : Z).

(** Run-time values.  Property names are always source literals, hence
    [string] keys; an object is a finite map from names to values. *)
Inductive value :=
| VUndefined
| VNull
| VBool (b : bool)
| VNum (n : number)
| VStr (s : jsstring)
| VObj (o : gmap string value).

Abbreviation obj := (gmap string value).

(** [o.k]: a missing property reads as [undefined]. *)
Definition get (o : obj) (k : string) : value :=
  default VUndefined (o !! k).

(** [{ ...o, k: v }] *)
Definition spread_set (o : obj) (k : string) (v : value) : obj :=
  <[k := v]> o.

(** ToBoolean *)
Definition truthy (v : value) : bool :=
  match v with
  | VUndefined | VNull => false
  | VBool b => b
  | VNum NaN => false
  | VNum (Num z) => negb (z =? 0)
  | VStr s => match s with [] => false | _ => true end
  | VObj _ => true
  end.

(** [a || b] *)
Definition or_else (a b : value) : value :=
  if truthy a then a else b.

Definition jsstring_eqb (s t : jsstring) : bool := bool_decide (s = t).

(** [a === b].  Objects compare by reference; two object values that were
    read out of records are never the same reference, so the comparison of
    objects answers [false]. *)
Definition strict_eq (a b : value) : bool :=
  match a, b with
  | VUndefined, VUndefined => true
  | VNull, VNull => true
  | VBool x, VBool y => eqb x y
  | VNum (Num x), VNum (Num y) => x =? y
  | VStr s, VStr t => jsstring_eqb s t
  | _, _ => false
  end.

(** ToString; integers are printed in full, as the language does below
    10^21. *)
Definition ToString (v : value) : jsstring :=
  match v with
  | VUndefined => js "undefined"
  | VNull => js "null"
  | VBool true => js "true"
  | VBool false => js "false"
  | VNum NaN => js "NaN"
  | VNum (Num z) => js (NilZero.string_of_int (Z.to_int z))
  | VStr s => s
  | VObj _ => js "[object Object]"
  end.

(** ** Completions *)

Inductive exn := TypeError.

Inductive completion (A : Type) :=
| Normal (a : A)
| Throw (e : exn).
Arguments Normal {A} a.
Arguments Throw {A} e.

#[export] Instance completion_ret : MRet completion := fun _ a => Normal a.
#[export] Instance completion_bind : MBind completion := fun _ _ f m =>
  match m with
  | Normal a => f a
  | Throw e => Throw e
  end.

#[export] Instance completion_fmap : FMap completion := fun _ _ f m =>
  match m with
  | Normal a => Normal (f a)
  | Throw e => Throw e
  end.

(** The outcome of an awaited request.  A rejection carries what the
    handlers read from the axios error: [error.response?.data?.error] and
    [error.message]. *)
Record AxiosError := {
  err_data_error : value;
  err_message : jsstring
}.

Inductive settled (A : Type) :=
| Resolved (a : A)
| Rejected (e : AxiosError).
Arguments Resolved {A} a.
Arguments Rejected {A} e.

(** ** String methods *)

(** WhiteSpace and LineTerminator code points, as [String.prototype.trim]
    strips them. *)
Definition is_space (c : N) : bool :=
  ((c =? 9) || (c =? 10) || (c =? 11) || (c =? 12) || (c =? 13) ||
   (c =? 32) || (c =? 160) || (c =? 5760) ||
   ((8192 <=? c) && (c <=? 8202)) ||
   (c =? 8232) || (c =? 8233) || (c =? 8239) || (c =? 8287) ||
   (c =? 12288) || (c =? 65279))%N.

Fixpoint trimStart (s : jsstring) : jsstring :=
  match s with
  | [] => []
  | c :: s' => if is_space c then trimStart s' else s
  end.

Definition trimEnd (s : jsstring) : jsstring :=
  rev (trimStart (rev s)).

Definition trim (s : jsstring) : jsstring :=
  trimEnd (trimStart s).

(** [s.split(sep)] for a separator of one code unit: always at least one
    part. *)
Fixpoint split (sep : N) (s : jsstring) : list jsstring :=
  match s with
  | [] => [[]]
  | c :: s' =>
      if (c =? sep)%N then [] :: split sep s'
      else match split sep s' with
           | [] => [[c]]
           | p :: ps => (c :: p) :: ps
           end
  end.

(** [s.replace(c, '')] for a pattern of one code unit: the first occurrence
    only. *)
Fixpoint replace_first (c : N) (s : jsstring) : jsstring :=
  match s with
  | [] => []
  | d :: s' => if (d =? c)%N then s' else d :: replace_first c s'
  end.

(** [s[0]] *)
Definition char0 (s : jsstring) : value :=
  match s with
  | [] => VUndefined
  | c :: _ => VStr [c]
  end.

(** [a + b] where each operand is a string or [undefined], the two kinds
    of value [s[0]] produces. *)
Definition add (a b : value) : value :=
  match a, b with
  | VUndefined, VUndefined => VNum NaN
  | _, _ => VStr (ToString a ++ ToString b)
  end.

(** [String.prototype.toUpperCase] and [toLowerCase] are the engine's
    Unicode case mappings; the components take them as given.  On text of
    the Basic Latin block they act as follows, which is what the closed
    examples use. *)
Definition upper_unit (c : N) : N :=
  if ((97 <=? c) && (c <=? 122))%N then (c - 32)%N else c.

Definition upper_latin (s : jsstring) : jsstring := map upper_unit s.

Definition lower_unit (c : N) : N :=
  if ((65 <=? c) && (c <=? 90))%N then (c + 32)%N else c.

Definition lower_latin (s : jsstring) : jsstring := map lower_unit s.

Fixpoint startsWith (s p : jsstring) : bool :=
  match p, s with
  | [], _ => true
  | _ :: _, [] => false
  | a :: p', b :: s' => (a =? b)%N && startsWith s' p'
  end.

(** [s.includes(p)] *)
Fixpoint includes (s p : jsstring) : bool :=
  startsWith s p ||
  match s with
  | [] => false
  | _ :: s' => includes s' p
  end.

(** [v.method()] for a method of [String.prototype] without arguments:
    only strings have it. *)
Definition call_string_method (method : jsstring -> jsstring) (v : value)
    : completion value :=
  match v with
  | VStr s => Normal (VStr (method s))
  | _ => Throw TypeError
  end.

(** ** Number helpers *)

Definition num_sub (a b : number) : number :=
  match a, b with
  | Num x, Num y => Num (x - y)
  | _, _ => NaN
  end.

(** The comparator result as [Array.prototype.sort] uses it: [NaN] counts
    as [+0]. *)
Definition sort_order (n : number) : Z :=
  match n with
  | NaN => 0
  | Num z => z
  end.

(** ** [Array.prototype.sort]

    The sort is stable.  It is embedded as the insertion sort that places
    an element behind every element it compares greater than.  For a
    consistent comparator every conforming sort produces the same array;
    for any other the language leaves the order to the engine, and the
    embedding is one such engine. *)
Section Sort.
Context {A : Type}.
Variable comparefn : A -> A -> completion number.

Fixpoint sort_insert (x : A) (l : list A) : completion (list A) :=
  match l with
  | [] => Normal [x]
  | y :: l' =>
      v ← comparefn x y;
      if 0 <? sort_order v
      then r ← sort_insert x l'; Normal (y :: r)
      else Normal (x :: y :: l')
  end.

Fixpoint sort (l : list A) : completion (list A) :=
  match l with
  | [] => Normal []
  | x :: l' => s ← sort l'; sort_insert x s
  end.
End Sort.

(** ** [Array.prototype.filter]

    The callback is run on the elements from left to right; its first
    exception ends the call. *)
Fixpoint array_filter {A : Type} (callback : A -> completion bool)
    (l : list A) : completion (list A) :=
  match l with
  | [] => Normal []
  | x :: l' =>
      b ← callback x;
      r ← array_filter callback l';
      Normal (if b : bool then x :: r else r)
  end.


(** The callback returns a truthy value for [x]. *)
Definition accepted {A : Type} (callback : A -> completion bool) (x : A)
    : bool :=
  match callback x with
  | Normal true => true
  | _ => false
  end.

End Js.

Import Js.

(* ===================================================================== *)
(** * Effects of the handlers *)
(* ===================================================================== *)

(** The routes of the back end the front end calls.  A route that embeds an
    email id keeps the interpolated value. *)
Inductive endpoint :=
| ApiStatus                      (* /api/status *)
| ApiEmailsSync                  (* /api/emails/sync *)
| ApiEmails                      (* /api/emails *)
| ApiStats                       (* /api/stats *)
| ApiEmail (emailId : value)     (* /api/emails/${emailId} *)
| ApiReply (emailId : value)     (* /api/emails/${emailId}/reply *)
| ApiRegenerate (emailId : value)(* /api/emails/${emailId}/regenerate-reply *)
| AuthLogin.                     (* /auth/login *)

Inductive http_method := GET | POST.

Record request := {
  req_method : http_method;
  req_endpoint : endpoint;
  req_body : option value
}.

Inductive effect :=
| Http (r : request)
| ToastSuccess (msg : value)
| ToastError (msg : jsstring)
| ConsoleError
| OnUpdate (updatedEmail : obj)       (* the [onUpdate] prop is called *)
| CloseAfter (ms : Z).                (* [setTimeout(onClose, ms)] *)

(** Response payloads are typed by the fields the handlers read from
    them. *)
Record EmailsResponse := { resp_emails : option (list obj) }.
Record DetailsResponse := { resp_email : obj }.
Record RegenerateResponse := { resp_draft_reply : jsstring }.

Definition is_sync_request (e : effect) : bool :=
  match e with
  | Http {| req_method := POST; req_endpoint := ApiEmailsSync |} => true
  | _ => false
  end.

Definition is_request (e : effect) : bool :=
  match e with
  | Http _ => true
  | _ => false
  end.

Definition is_update (e : effect) : bool :=
  match e with
  | OnUpdate _ => true
  | _ => false
  end.

(* ===================================================================== *)
(** * services/api.js *)
(* ===================================================================== *)

Module Api.

Definition getStatus : request :=
  {| req_method := GET; req_endpoint := ApiStatus; req_body := None |}.

Definition syncEmails : request :=
  {| req_method := POST; req_endpoint := ApiEmailsSync; req_body := None |}.

Definition getEmails : request :=
  {| req_method := GET; req_endpoint := ApiEmails; req_body := None |}.

Definition getStats : request :=
  {| req_method := GET; req_endpoint := ApiStats; req_body := None |}.

Definition getEmailDetails (emailId : value) : request :=
  {| req_method := GET; req_endpoint := ApiEmail emailId; req_body := None |}.

(** [api.post(`/api/emails/${emailId}/reply`, { content })] *)
Definition sendReply (emailId : value) (content : value) : request :=
  {| req_method := POST;
     req_endpoint := ApiReply emailId;
     req_body := Some (VObj {[ "content" := content ]}) |}.

Definition regenerateReply (emailId : value) : request :=
  {| req_method := POST; req_endpoint := ApiRegenerate emailId;
     req_body := None |}.

Section Builtins.
Variable toUpperCase : jsstring -> jsstring.

(** [getSenderInitials(name, email)] *)
Definition getSenderInitials (name email : value) : completion value :=
  if truthy name then
    match name with
    | VStr n =>
        match split 32 n with
        | p0 :: p1 :: _ =>
            call_string_method toUpperCase (add (char0 p0) (char0 p1))
        | [p0] => call_string_method toUpperCase (char0 p0)
        | [] => Throw TypeError
        end
    | _ => Throw TypeError          (* [name.split] is not a function *)
    end
  else if truthy email then
    match email with
    | VStr e => call_string_method toUpperCase (char0 e)
    | VObj o => call_string_method toUpperCase (get o "0")
    | _ => Throw TypeError          (* [email[0]] is undefined *)
    end
  else Normal (VStr (js "?")).
End Builtins.

(** [const colors = [...]] of [getAvatarColor] *)
Definition colors : list jsstring :=
  [js "bg-blue-500"; js "bg-green-500"; js "bg-purple-500"; js "bg-pink-500"].

(** [getAvatarColor(email)]: [colors[email.charCodeAt(0) % colors.length]].
    The code unit of an empty string is [NaN], and so is the index; only
    strings have [charCodeAt]. *)
Definition getAvatarColor (email : value) : completion value :=
  match email with
  | VStr [] => Normal VUndefined
  | VStr (c :: _) =>
      Normal (from_option VStr VUndefined
                (colors !! N.to_nat (c mod N.of_nat (length colors))))
  | _ => Throw TypeError
  end.

(** [getEmailPriority(email)]: exported, called by no component. *)
Definition getEmailPriority (email : obj) : value := VStr (js "normal").

End Api.

(* ===================================================================== *)
(** * components/EmailModel.js (in the tree: the second half of App.js) *)
(* ===================================================================== *)

Module EmailModal.

Inductive tab := Summary | FullEmail | Reply.

(** The [useState] cells of the component. *)
Record State := {
  emailDetails : obj;
  replyContent : jsstring;
  sending : bool;
  regenerating : bool;
  activeTab : tab;
  loading : bool
}.

Definition set_emailDetails (st : State) (d : obj) : State :=
  {| emailDetails := d; replyContent := replyContent st;
     sending := sending st; regenerating := regenerating st;
     activeTab := activeTab st; loading := loading st |}.

Definition set_replyContent (st : State) (t : jsstring) : State :=
  {| emailDetails := emailDetails st; replyContent := t;
     sending := sending st; regenerating := regenerating st;
     activeTab := activeTab st; loading := loading st |}.

Definition set_sending (st : State) (b : bool) : State :=
  {| emailDetails := emailDetails st; replyContent := replyContent st;
     sending := b; regenerating := regenerating st;
     activeTab := activeTab st; loading := loading st |}.

Definition set_regenerating (st : State) (b : bool) : State :=
  {| emailDetails := emailDetails st; replyContent := replyContent st;
     sending := sending st; regenerating := b;
     activeTab := activeTab st; loading := loading st |}.

Definition set_loading (st : State) (b : bool) : State :=
  {| emailDetails := emailDetails st; replyContent := replyContent st;
     sending := sending st; regenerating := regenerating st;
     activeTab := activeTab st; loading := b |}.

(** A click on a tab. *)
Definition setActiveTab (st : State) (t : tab) : State :=
  {| emailDetails := emailDetails st; replyContent := replyContent st;
     sending := sending st; regenerating := regenerating st;
     activeTab := t; loading := loading st |}.

(** The initial values of the cells, then the mount effect up to its first
    [await]: [loadEmailDetails] has raised [loading], and the stored draft
    (a string) has become the reply text of an unreplied email. *)
Definition mount (email : obj) : State :=
  {| emailDetails := email;
     replyContent :=
       match get email "draft_reply" with
       | VStr d =>
           if truthy (VStr d) && negb (truthy (get email "has_reply"))
           then d else []
       | _ => []
       end;
     sending := false; regenerating := false;
     activeTab := Summary; loading := true |}.

Definition loadEmailDetails (email : obj) (st : State)
    (r : settled DetailsResponse) : State * list effect :=
  let req := Http (Api.getEmailDetails (get email "id")) in
  match r with
  | Resolved response =>
      (set_loading (set_emailDetails st (resp_email response)) false, [req])
  | Rejected _ =>
      (set_loading st false,
       [req; ConsoleError; ToastError (js "Failed to load email details")])
  end.

Definition handleSendReply (email : obj) (st : State)
    (r : settled value) : State * list effect :=
  if negb (truthy (VStr (trim (replyContent st)))) then
    (st, [ToastError (js "Please write a reply before sending")])
  else
    let req :=
      Http (Api.sendReply (get email "id")
              (VObj {[ "content" := VStr (replyContent st) ]})) in
    match r with
    | Resolved _ =>
        let updatedEmail :=
          spread_set (emailDetails st) "has_reply" (VBool true) in
        (set_sending (set_emailDetails st updatedEmail) false,
         [req; ToastSuccess (VStr (js "Reply sent successfully!"));
          OnUpdate updatedEmail; CloseAfter 1000])
    | Rejected error =>
        (set_sending st false,
         [req; ConsoleError;
          ToastError (js "Failed to send reply: " ++
                      ToString (or_else (err_data_error error)
                                        (VStr (err_message error))))])
    end.

Definition handleRegenerateReply (email : obj) (st : State)
    (r : settled RegenerateResponse) : State * list effect :=
  let req := Http (Api.regenerateReply (get email "id")) in
  match r with
  | Resolved response =>
      (set_regenerating (set_replyContent st (resp_draft_reply response)) false,
       [req; ToastSuccess (VStr (js "New reply generated!"))])
  | Rejected _ =>
      (set_regenerating st false,
       [req; ConsoleError; ToastError (js "Failed to generate new reply")])
  end.

(** ** What the component renders below the tab bar *)

(** U+2022, the bullet the summary tab strips and draws. *)
Definition bullet : N := 8226%N.

(** One element of [summary.split('\n').map(...)]: the empty string of a
    blank line renders nothing. *)
Inductive summaryLine :=
| Nothing
| BulletItem (text : jsstring).

Inductive summaryView :=
| NoSummary                                   (* "No summary available" *)
| SummaryLines (ls : list summaryLine).

Definition renderSummaryLine (line : jsstring) : summaryLine :=
  if truthy (VStr (trim line))
  then BulletItem (trim (replace_first bullet line))
  else Nothing.

Definition renderSummary (summary : value) : completion summaryView :=
  if truthy summary then
    match summary with
    | VStr s => Normal (SummaryLines (map renderSummaryLine (split 10 s)))
    | _ => Throw TypeError         (* [summary.split] is not a function *)
    end
  else Normal NoSummary.

(** A line without any character besides white space. *)
Definition blank (line : jsstring) : bool := forallb is_space line.

(** The texts of the bullet paragraphs on screen, top to bottom. *)
Definition bullets (v : summaryView) : list jsstring :=
  match v with
  | NoSummary => []
  | SummaryLines ls =>
      omap (fun l => match l with
                     | BulletItem t => Some t
                     | Nothing => None
                     end) ls
  end.

(** The reply tab: a notice for a replied email, the composer otherwise.
    The composer holds the Regenerate button, the text area and the Send
    button. *)
Inductive replyView :=
| AlreadyReplied
| Compose (regenerateDisabled : bool) (text : jsstring) (sendDisabled : bool).

Definition renderReply (st : State) : replyView :=
  if truthy (get (emailDetails st) "has_reply") then AlreadyReplied
  else Compose (regenerating st) (replyContent st)
         (sending st || negb (truthy (VStr (trim (replyContent st))))).

Inductive contentView :=
| Spinner
| SummaryTab (v : completion summaryView)
| FullEmailTab (html : value)
| ReplyTab (v : replyView).

Definition renderContent (st : State) : contentView :=
  if loading st then Spinner
  else match activeTab st with
       | Summary => SummaryTab (renderSummary (get (emailDetails st) "summary"))
       | FullEmail =>
           FullEmailTab (or_else (get (emailDetails st) "full_body")
                                 (get (emailDetails st) "body"))
       | Reply => ReplyTab (renderReply st)
       end.

(** The Regenerate button is on screen and enabled. *)
Definition regenerateOffered (st : State) : bool :=
  match renderContent st with
  | ReplyTab (Compose false _ _) => true
  | _ => false
  end.



(** The "Needs Reply" badge of the header. *)
Definition needsReplyBadge (st : State) : bool :=
  negb (truthy (get (emailDetails st) "has_reply")).

(** The Send button is on screen and enabled. *)
Definition sendOffered (st : State) : bool :=
  match renderContent st with
  | ReplyTab (Compose _ _ false) => true
  | _ => false
  end.

(** The avatar colour of the header: [getAvatarColor(emailDetails.sender)],
    computed on every render. *)
Definition avatarColor (st : State) : completion value :=
  Api.getAvatarColor (get (emailDetails st) "sender").

End EmailModal.

(* ===================================================================== *)
(** * App.js *)
(* ===================================================================== *)

Module App.

Record State := {
  emails : list obj;
  loading : bool;
  syncing : bool;
  authenticated : value;
  ollamaStatus : value;
  selectedEmail : option obj
}.

(** [useState([])], [useState(true)], [useState(false)], ... *)
Definition initial : State :=
  {| emails := []; loading := true; syncing := false;
     authenticated := VBool false; ollamaStatus := VBool false;
     selectedEmail := None |}.

Definition set_emails (st : State) (l : list obj) : State :=
  {| emails := l; loading := loading st; syncing := syncing st;
     authenticated := authenticated st; ollamaStatus := ollamaStatus st;
     selectedEmail := selectedEmail st |}.

Definition set_loading (st : State) (b : bool) : State :=
  {| emails := emails st; loading := b; syncing := syncing st;
     authenticated := authenticated st; ollamaStatus := ollamaStatus st;
     selectedEmail := selectedEmail st |}.

Definition set_syncing (st : State) (b : bool) : State :=
  {| emails := emails st; loading := loading st; syncing := b;
     authenticated := authenticated st; ollamaStatus := ollamaStatus st;
     selectedEmail := selectedEmail st |}.

Definition set_status (st : State) (a o : value) : State :=
  {| emails := emails st; loading := loading st; syncing := syncing st;
     authenticated := a; ollamaStatus := o;
     selectedEmail := selectedEmail st |}.

Definition checkStatus (st : State) (r : settled obj)
    : State * list effect :=
  match r with
  | Resolved status =>
      (set_status st (get status "authenticated") (get status "ollama_status"),
       [Http Api.getStatus])
  | Rejected _ =>
      (st, [Http Api.getStatus; ConsoleError;
            ToastError (js "Failed to check service status")])
  end.

Definition loadEmails (st : State) (r : settled EmailsResponse)
    : State * list effect :=
  match r with
  | Resolved response =>
      (set_loading (set_emails st (default [] (resp_emails response))) false,
       [Http Api.getEmails])
  | Rejected _ =>
      (set_loading st false,
       [Http Api.getEmails; ConsoleError;
        ToastError (js "Failed to load emails")])
  end.

Definition handleSync (st : State) (synced : settled obj)
    (loaded : settled EmailsResponse) : State * list effect :=
  if negb (truthy (authenticated st)) then
    (st, [ToastError (js "Please authenticate first")])
  else if negb (truthy (ollamaStatus st)) then
    (st, [ToastError
            (js "Ollama service is not running. Please start Ollama first.")])
  else
    match synced with
    | Resolved response =>
        let '(st', effs) := loadEmails st loaded in
        (set_syncing st' false,
         [Http Api.syncEmails;
          ToastSuccess (or_else (get response "message")
                          (VStr (js "Emails synced successfully!")))]
         ++ effs)
    | Rejected _ =>
        (set_syncing st false,
         [Http Api.syncEmails; ConsoleError;
          ToastError (js "Failed to sync emails")])
    end.

(** [emails.map(email => email.id === updatedEmail.id ? updatedEmail : email)] *)
Definition handleEmailUpdate (st : State) (updatedEmail : obj) : State :=
  set_emails st
    (map (fun email =>
            if strict_eq (get email "id") (get updatedEmail "id")
            then updatedEmail else email)
         (emails st)).

(** The [emailCount] prop handed to the sidebar. *)
Record EmailCount := {
  total : nat;
  unreplied : nat;
  replied : nat
}.

Definition emailCount (st : State) : EmailCount :=
  {| total := length (emails st);
     unreplied :=
       length (List.filter (fun e => negb (truthy (get e "has_reply")))
                           (emails st));
     replied :=
       length (List.filter (fun e => truthy (get e "has_reply"))
                           (emails st)) |}.

(** [disabled] of the header's Sync button. *)
Definition syncButtonDisabled (st : State) : bool :=
  syncing st || negb (truthy (authenticated st))
             || negb (truthy (ollamaStatus st)).

(** [getServiceStatus()]: the status word and the text of the header's
    indicator. *)
Definition getServiceStatus (st : State) : jsstring * jsstring :=
  if negb (truthy (authenticated st)) then
    (js "error", js "Not authenticated")
  else if negb (truthy (ollamaStatus st)) then
    (js "warning", js "Ollama not running")
  else (js "success", js "All services running").

Section Search.
Variable toLowerCase : jsstring -> jsstring.

(** [(email.k || '').toLowerCase().includes(query)] *)
Definition fieldIncludes (email : obj) (k : string) (query : jsstring)
    : completion bool :=
  match or_else (get email k) (VStr []) with
  | VStr s => Normal (includes (toLowerCase s) query)
  | _ => Throw TypeError           (* [toLowerCase] is not a function *)
  end.

(** The callback of [emails.filter] in [filteredEmails]; [filter] and
    [searchQuery] are the two cells of that name. *)
Definition keeps (filter searchQuery : jsstring) (email : obj)
    : completion bool :=
  if bool_decide (filter = js "unreplied") && truthy (get email "has_reply")
  then Normal false
  else if bool_decide (filter = js "replied") &&
          negb (truthy (get email "has_reply"))
  then Normal false
  else if truthy (VStr searchQuery) then
    let query := toLowerCase searchQuery in
    inSubject ← fieldIncludes email "subject" query;
    if inSubject : bool then Normal true
    else
      inSender ← fieldIncludes email "sender" query;
      if inSender : bool then Normal true
      else fieldIncludes email "summary" query
  else Normal true.

Definition filteredEmails (filter searchQuery : jsstring) (st : State)
    : completion (list obj) :=
  array_filter (keeps filter searchQuery) (emails st).
End Search.

(** A field the search can read: a string, or a falsy value, which the
    search takes for the empty string. *)
Definition textual (v : value) : bool :=
  match v with
  | VStr _ => true
  | _ => negb (truthy v)
  end.

(** The three fields the search reads are of that kind. *)
Definition searchable (email : obj) : bool :=
  textual (get email "subject") && textual (get email "sender") &&
  textual (get email "summary").

End App.

(* ===================================================================== *)
(** * components/Sidebar.js *)
(* ===================================================================== *)

Module Sidebar.

Record MenuItem := {
  item_id : string;
  item_label : string;
  item_count : nat
}.

(** [n || 0] on a count *)
Definition or_zero (n : nat) : nat :=
  match n with
  | O => O
  | _ => n
  end.

(** [emailCount?.total || 0] and its two siblings. *)
Definition menuItems (emailCount : option App.EmailCount) : list MenuItem :=
  [ {| item_id := "all"; item_label := "All Emails";
       item_count := from_option (fun c => or_zero (App.total c)) O emailCount |};
    {| item_id := "unreplied"; item_label := "Needs Reply";
       item_count := from_option (fun c => or_zero (App.unreplied c)) O emailCount |};
    {| item_id := "replied"; item_label := "Replied";
       item_count := from_option (fun c => or_zero (App.replied c)) O emailCount |} ].

(** The count drawn next to the menu entry [id]. *)
Definition shownCount (id : string) (items : list MenuItem) : nat :=
  from_option item_count O
    (List.find (fun i => bool_decide (item_id i = id)) items).

(** The Sync button of the sidebar: [None] when it is not rendered,
    otherwise its [disabled] attribute.  Both layouts render it for an
    authenticated user only. *)
Definition syncButton (collapsed : bool) (authenticated ollamaStatus : value)
    (syncing : bool) : option bool :=
  let disabled :=
    syncing || negb (truthy authenticated) || negb (truthy ollamaStatus) in
  if collapsed then
    if negb (truthy authenticated) then None else Some disabled
  else
    if truthy authenticated then Some disabled else None.

(** A click on the sidebar's Sync button reaches [onSync]. *)
Definition syncClickable (collapsed : bool) (st : App.State) : bool :=
  match syncButton collapsed (App.authenticated st) (App.ollamaStatus st)
          (App.syncing st) with
  | Some false => true
  | _ => false
  end.

(** The Connect button: in either layout it is there for a user who is
    not authenticated. *)
Definition authButton (collapsed : bool) (authenticated : value) : bool :=
  if collapsed then negb (truthy authenticated)
  else negb (truthy authenticated).

(** The search box: [None] when it is not rendered, otherwise its value
    [searchQuery || '']. *)
Definition searchBox (collapsed : bool) (authenticated : value)
    (searchQuery : jsstring) : option jsstring :=
  if collapsed then None
  else if truthy authenticated then Some searchQuery else None.

(** The menu entries on screen. *)
Definition menu (collapsed : bool) (authenticated : value)
    (emailCount : option App.EmailCount) : list MenuItem :=
  if collapsed then []
  else if truthy authenticated then menuItems emailCount else [].

(** The entries drawn as selected: [filter === item.id]. *)
Definition highlighted (filter : jsstring) (items : list MenuItem)
    : list MenuItem :=
  List.filter (fun i => bool_decide (filter = js (item_id i))) items.

End Sidebar.

(* ===================================================================== *)
(** * components/Debugdashboard.js *)
(* ===================================================================== *)

Module DebugDashboard.

Inductive light := Green | Red.

(** The "Authentication" card reads [debugInfo.status?.authenticated]. *)
Definition authenticationCard (status : option obj) : light * string :=
  if truthy (from_option (fun s => get s "authenticated") VUndefined status)
  then (Green, "Connected") else (Red, "Not Connected").

(** The "Ollama AI" card reads [debugInfo.status?.ollama_status]. *)
Definition ollamaCard (status : option obj) : light * string :=
  if truthy (from_option (fun s => get s "ollama_status") VUndefined status)
  then (Green, "Running") else (Red, "Not Running").

(** The "Last Sync" card: the value handed to [new Date], or [None] for
    "Never". *)
Definition lastSyncCard (status : option obj) : option value :=
  let v := from_option (fun s => get s "last_sync") VUndefined status in
  if truthy v then Some v else None.

(** The [debugInfo] cell and the [loading] cell; [null] is [None]. *)
Record State := {
  database : option obj;
  ollama : option obj;
  status : option obj;
  emails : option EmailsResponse;
  loading : bool
}.

Definition initial : State :=
  {| database := None; ollama := None; status := None; emails := None;
     loading := true |}.

(** The component calls [axios] itself, on paths relative to the page. *)
Inductive route := DbTest | OllamaTest | Status | Emails | Sync.

Inductive action :=
| AxiosGet (r : route)
| AxiosPost (r : route)
| ConsoleLog (msg : jsstring)
| ConsoleError
| Alert (msg : jsstring).

Definition gets (acts : list action) : list route :=
  omap (fun a => match a with AxiosGet r => Some r | _ => None end) acts.

Definition posts (acts : list action) : list route :=
  omap (fun a => match a with AxiosPost r => Some r | _ => None end) acts.

Definition alerts (acts : list action) : list jsstring :=
  omap (fun a => match a with Alert m => Some m | _ => None end) acts.

Definition finish (st : State) : State :=
  {| database := database st; ollama := ollama st; status := status st;
     emails := emails st; loading := false |}.

(** [runDebugTests]: four requests in a row inside one [try]; the first
    rejection ends the row. *)
Definition runDebugTests (st : State) (dbTest ollamaTest statusGot : settled obj)
    (emailsGot : settled EmailsResponse) : State * list action :=
  let a1 := [ConsoleLog (js "Testing database..."); AxiosGet DbTest] in
  match dbTest with
  | Rejected _ => (finish st, a1 ++ [ConsoleError])
  | Resolved d1 =>
    let a2 := a1 ++ [ConsoleLog (js "Testing Ollama..."); AxiosGet OllamaTest] in
    match ollamaTest with
    | Rejected _ =>
        ({| database := Some d1; ollama := ollama st; status := status st;
            emails := emails st; loading := false |}, a2 ++ [ConsoleError])
    | Resolved d2 =>
      let a3 := a2 ++ [ConsoleLog (js "Getting status..."); AxiosGet Status] in
      match statusGot with
      | Rejected _ =>
          ({| database := Some d1; ollama := Some d2; status := status st;
              emails := emails st; loading := false |}, a3 ++ [ConsoleError])
      | Resolved d3 =>
        let a4 := a3 ++ [ConsoleLog (js "Getting emails..."); AxiosGet Emails] in
        match emailsGot with
        | Rejected _ =>
            ({| database := Some d1; ollama := Some d2; status := Some d3;
                emails := emails st; loading := false |}, a4 ++ [ConsoleError])
        | Resolved d4 =>
            ({| database := Some d1; ollama := Some d2; status := Some d3;
                emails := Some d4; loading := false |}, a4)
        end
      end
    end
  end.

(** The text after "Sync failed: ". *)
Definition failureText (error : AxiosError) : jsstring :=
  ToString (or_else (err_data_error error) (VStr (err_message error))).

(** [handleSync] of the debug dashboard, the handler of "Test Sync". *)
Definition handleSync (st : State) (synced : settled obj)
    (emailsGot : settled EmailsResponse) : State * list action :=
  let a1 := [ConsoleLog (js "Starting sync..."); AxiosPost Sync] in
  match synced with
  | Rejected error =>
      (st, a1 ++ [ConsoleError; Alert (js "Sync failed: " ++ failureText error)])
  | Resolved response =>
    let a2 := a1 ++ [ConsoleLog (js "Sync response:"); AxiosGet Emails] in
    match emailsGot with
    | Rejected error =>
        (st, a2 ++ [ConsoleError;
                    Alert (js "Sync failed: " ++ failureText error)])
    | Resolved d =>
        ({| database := database st; ollama := ollama st; status := status st;
            emails := Some d; loading := loading st |},
         a2 ++ [Alert (js "Sync completed! " ++
                       ToString (get response "message"))])
    end
  end.

(** The "Current Emails in Database" panel: nothing without a non-empty
    list, otherwise the total, the cards of [emails.slice(0, 5)] and the
    number of the "... and n more emails" line when there is one. *)
Inductive emailsPanel :=
| NoEmails
| Listing (total : nat) (cards : list obj) (more : option nat).

Definition renderEmails (st : State) : emailsPanel :=
  match emails st with
  | Some {| resp_emails := Some (e :: l) |} =>
      let all := e :: l in
      Listing (length all) (take 5 all)
        (if (5 <? length all)%nat then Some (length all - 5)%nat else None)
  | _ => NoEmails
  end.

End DebugDashboard.

(* ===================================================================== *)
(** * components/Dashboard.js *)
(* ===================================================================== *)

Module Dashboard.

(** [const priorityOrder = { high: 3, medium: 2, normal: 1 }] read at the
    key [priority] and taken as a number: a key outside the table gives
    [undefined] or a member of [Object.prototype], either of which is
    [NaN] as a number. *)
Definition priorityOrder (priority : value) : number :=
  let k := ToString priority in
  if bool_decide (k = js "high") then Num 3
  else if bool_decide (k = js "medium") then Num 2
  else if bool_decide (k = js "normal") then Num 1
  else NaN.

(** [getPriority(email)]: declared in the component, called nowhere. *)
Definition getPriority (toLowerCase : jsstring -> jsstring) (email : obj)
    : completion value :=
  subject ←
    match get email "subject" with
    | VUndefined | VNull => Normal []
    | VStr s => Normal (toLowerCase s)
    | _ => Throw TypeError
    end;
  if existsb (fun keyword => includes subject keyword)
       [js "urgent"; js "asap"; js "immediate"; js "critical"]
  then Normal (VStr (js "high"))
  else if includes subject (js "re:") then Normal (VStr (js "medium"))
  else Normal (VStr (js "normal")).

Section Builtins.
(** [Date.parse] and [String.prototype.localeCompare] belong to the
    engine and its locale data. *)
Variable Date_parse : jsstring -> number.
Variable localeCompare : jsstring -> jsstring -> number.

Definition timeClip (n : number) : number :=
  match n with
  | NaN => NaN
  | Num z => if Z.abs z <=? 8640000000000000 then Num z else NaN
  end.

(** The time value of [new Date(v)]. *)
Definition newDate (v : value) : number :=
  match v with
  | VUndefined => NaN
  | VNull => Num 0
  | VBool b => Num (if b then 1 else 0)
  | VNum n => timeClip n
  | VStr s => Date_parse s
  | VObj _ => Date_parse (js "[object Object]")
  end.

(** The comparator handed to [sort]. *)
Definition compareEmails (sortBy : jsstring) (a b : obj)
    : completion number :=
  if bool_decide (sortBy = js "timestamp") then
    Normal (num_sub (newDate (get b "timestamp"))
                    (newDate (get a "timestamp")))
  else if bool_decide (sortBy = js "priority") then
    Normal (num_sub (priorityOrder (get b "priority"))
                    (priorityOrder (get a "priority")))
  else if bool_decide (sortBy = js "sender") then
    match get a "sender" with
    | VStr s => Normal (localeCompare s (ToString (get b "sender")))
    | _ => Throw TypeError
    end
  else Normal (Num 0).

(** [[...emails].sort((a, b) => ...)] *)
Definition sortedEmails (sortBy : jsstring) (emails : list obj)
    : completion (list obj) :=
  Js.sort (compareEmails sortBy) emails.

(** The displayed position of the timestamp of an email. *)
Definition received (e : obj) : number := newDate (get e "timestamp").

End Builtins.

(** [useState('timestamp')]: the ordering the dashboard starts with. *)
Definition defaultSortBy : jsstring := js "timestamp".

(** [a] is a moment strictly before [b]. *)
Definition earlier (a b : number) : Prop :=
  match a, b with
  | Num x, Num y => x < y
  | _, _ => False
  end.

(** Every message stands before all messages with a strictly earlier
    timestamp. *)
Definition newest_first (Date_parse : jsstring -> number)
    (shown : list obj) : Prop :=
  forall (i j : nat) (x y : obj),
    shown !! i = Some x -> shown !! j = Some y ->
    earlier (received Date_parse y) (received Date_parse x) ->
    (i < j)%nat.

(** The timestamp of the message is a date. *)
Definition dated (Date_parse : jsstring -> number) (e : obj) : Prop :=
  exists t, received Date_parse e = Num t.

(** The rank the priority ordering gives an email ([NaN] counting as
    zero, as in the sort). *)
Definition rank (e : obj) : Z :=
  sort_order (priorityOrder (get e "priority")).

(** The priority of the email is one of the table. *)
Definition ranked (e : obj) : Prop :=
  exists r, priorityOrder (get e "priority") = Num r.

(** ** What the dashboard renders *)

Inductive listView :=
| EmptyState                        (* "No emails found" *)
| Cards (grid : bool) (cards : list obj).

Inductive view :=
| ConnectScreen                     (* "Connect Your Email" *)
| Skeleton
| Main (totalCard : option value) (headingCount : nat) (list : listView)
       (loadMore : bool).

(** The component body: [sortedEmails] is computed first, on every render;
    then come the two early returns and the page.  [stats], [viewMode] and
    [sortBy] are the cells, the rest are props. *)
Definition render (Date_parse : jsstring -> number)
    (localeCompare : jsstring -> jsstring -> number)
    (stats : value) (viewMode sortBy : jsstring)
    (emails : list obj) (loading : bool) (authenticated : value)
    : completion view :=
  sorted ← sortedEmails Date_parse localeCompare sortBy emails;
  if negb (truthy authenticated) then Normal ConnectScreen
  else if loading then Normal Skeleton
  else
    Normal
      (Main
         (if truthy stats
          then Some (match stats with
                     | VObj o => get o "total_emails"
                     | _ => VUndefined
                     end)
          else None)
         (length emails)
         (match emails with
          | [] => EmptyState
          | _ => Cards (bool_decide (viewMode = js "grid")) sorted
          end)
         (20 <=? length emails)%nat).

End Dashboard.

(* ===================================================================== *)
(** * The core operation behind [regenerateReply] *)
(* ===================================================================== *)

Module Core.

(** Modelled from the spec: the tri-state [is_relevant] of a Message
    (section 3); the record type lives in the back end, which is not in
    the source tree. *)
Inductive relevance := Unknown | Relevant | Filtered.

(** Modelled from the spec: the mutable fields of a stored Message
    (section 3) that [regenerate_draft] reads or writes. *)
Record Message := {
  is_relevant : relevance;
  summary : option jsstring;
  draft_reply : option jsstring;
  has_reply : bool
}.

(** Modelled from the spec: the failures of the boundary operations
    (sections 6 and 7). *)
Inductive error :=
| NotFound
| AlreadyReplied
| NotRelevant
| InferenceUnavailable.

(** Modelled from the spec: writing the narrowly-scoped field
    [draft_reply] of one record (section 3, ownership). *)
Definition set_draft (m : Message) (d : jsstring) : Message :=
  {| is_relevant := is_relevant m; summary := summary m;
     draft_reply := Some d; has_reply := has_reply m |}.

(** Modelled from the spec: [regenerate_draft(id) -> new DraftText]
    (section 6), the back-end route behind [Api.regenerateReply]; its
    implementation is missing from the source tree.  It "fails with
    AlreadyReplied if has_reply is true, NotRelevant if the message was
    filtered, InferenceUnavailable if the backend health check fails";
    the Reply Drafter "must only be invoked for messages with
    is_relevant == relevant and has_reply == false" (section 4.5).  The
    drafter's text is the model's, hence a parameter; [is_available] is
    the health check of section 4.6.  The record store is threaded through
    the call. *)
Definition regenerate_draft (is_available : bool)
    (regenerate : Message -> jsstring) (id : string)
    (store : gmap string Message)
    : gmap string Message * (error + jsstring) :=
  match store !! id with
  | None => (store, inl NotFound)
  | Some m =>
      if has_reply m then (store, inl AlreadyReplied)
      else match is_relevant m with
           | Relevant =>
               if is_available then
                 let d := regenerate m in
                 (<[id := set_draft m d]> store, inr d)
               else (store, inl InferenceUnavailable)
           | _ => (store, inl NotRelevant)
           end
  end.

End Core.

(* ===================================================================== *)
(** * The scenario of the specification *)
(* ===================================================================== *)

Module Scenario.

(** The message [m1] of the concrete scenario, as the list hands it to the
    modal. *)
Definition m1 : obj :=
  {[ "id" := VStr (js "m1");
     "sender" := VStr (js "dana@example.com");
     "subject" := VStr (js "Re: Budget");
     "body" := VStr (js "Can you approve by Friday?");
     "has_reply" := VBool false ]}.

(** The modal on [m1] with the details loaded. *)
Definition opened : EmailModal.State :=
  fst (EmailModal.loadEmailDetails m1 (EmailModal.mount m1)
         (Resolved {| resp_email := m1 |})).

(** The same once the user has gone to the reply tab and typed the
    reply. *)
Definition typed_approved : EmailModal.State :=
  EmailModal.set_replyContent
    (EmailModal.setActiveTab opened EmailModal.Reply) (js "Approved.").

Definition network_error : AxiosError :=
  {| err_data_error := VUndefined; err_message := js "Network Error" |}.

(** The stored record of [m1] after the reply went out. *)
Definition m1_replied : Core.Message :=
  {| Core.is_relevant := Core.Relevant;
     Core.summary := Some (js "Approval wanted by Friday");
     Core.draft_reply := Some (js "Approved.");
     Core.has_reply := true |}.

(** A status record shaped after the contract of section 6. *)
Definition contract_status : obj :=
  {[ "authenticated" := VBool true;
     "inference_available" := VBool true;
     "last_sync" := VNull ]}.

(** An application state in which the last status poll found the
    inference back end down. *)
Definition ollama_down : App.State :=
  fst (App.checkStatus App.initial
         (Resolved {[ "authenticated" := VBool true;
                      "ollama_status" := VBool false;
                      "last_sync" := VNull ]})).

(** An engine stub for closed examples: no string parses as a date, all
    strings collate as equal.  The examples carry numeric timestamps. *)
Definition parse_nothing (s : jsstring) : number := NaN.
Definition collate_nothing (s t : jsstring) : number := Num 0.

Definition message (id : string) (timestamp priority subject : value) : obj :=
  {[ "id" := VStr (js id); "timestamp" := timestamp;
     "priority" := priority; "subject" := subject ]}.

(** Three messages, the middle one without a timestamp. *)
Definition inbox_with_undated : list obj :=
  [ message "a" (VNum (Num 1000)) (VStr (js "normal")) (VStr (js "Lunch"));
    {[ "id" := VStr (js "x"); "priority" := VStr (js "normal");
       "subject" := VStr (js "Draft") ]};
    message "b" (VNum (Num 2000)) (VStr (js "normal")) (VStr (js "Budget")) ].

(** Two messages whose subject and stored priority disagree. *)
Definition inbox_priorities : list obj :=
  [ message "a" (VNum (Num 1000)) (VStr (js "normal"))
      (VStr (js "URGENT: server down"));
    message "b" (VNum (Num 2000)) (VStr (js "high")) (VStr (js "Lunch")) ].

(** Overwrites the subject of a message, keeps the rest. *)
Definition shout (e : obj) : obj :=
  spread_set e "subject" (VStr (js "urgent asap critical")).

(** The application after a status poll that found everything up, with
    [m1] and a replied message in the list. *)
Definition m2 : obj :=
  {[ "id" := VStr (js "m2");
     "subject" := VStr (js "Minutes");
     "sender" := VStr (js "ann@example.com");
     "summary" := VStr (js "Minutes of Monday");
     "has_reply" := VBool true ]}.

Definition all_up : App.State :=
  App.set_emails
    (fst (App.checkStatus App.initial
            (Resolved {[ "authenticated" := VBool true;
                         "ollama_status" := VBool true ]})))
    [m1; m2].

End Scenario.

(* ===================================================================== *)
(** * Verification *)
(* ===================================================================== *)

(** The requests of a trace, in order. *)
Definition requests (effs : list effect) : list request :=
  omap (fun e => match e with Http r => Some r | _ => None end) effs.

(** ** Object facts *)

Lemma get_spread_set_eq (o : obj) (k : string) (v : value) :
  get (spread_set o k v) k = v.
Proof. unfold get, spread_set. by rewrite lookup_insert_eq. Qed.

Lemma lookup_spread_set_ne (o : obj) (k k' : string) (v : value) :
  k <> k' -> spread_set o k v !! k' = o !! k'.
Proof. intros Hne. unfold spread_set. by rewrite lookup_insert_ne. Qed.

Lemma get_spread_set_ne (o : obj) (k k' : string) (v : value) :
  k <> k' -> get (spread_set o k v) k' = get o k'.
Proof. intros Hne. unfold get. by rewrite lookup_spread_set_ne. Qed.

(** ** Sending a reply *)

Section SendReply.
Import EmailModal.
Variables (email : obj) (st : State).

(** A blank reply is refused before anything is sent or changed. *)
Lemma handleSendReply_blank (r : settled value) :
  truthy (VStr (trim (replyContent st))) = false ->
  handleSendReply email st r =
    (st, [ToastError (js "Please write a reply before sending")]).
Proof. intros Hb. unfold handleSendReply. by rewrite Hb. Qed.

(** The one request of the handler, whatever its outcome: the [content]
    field of the body is itself an object, built by the handler and
    wrapped once more by [Api.sendReply]. *)
Lemma handleSendReply_request (r : settled value) :
  truthy (VStr (trim (replyContent st))) = true ->
  requests (snd (handleSendReply email st r)) =
    [ {| req_method := POST;
         req_endpoint := ApiReply (get email "id");
         req_body :=
           Some (VObj {[ "content" :=
                   VObj {[ "content" := VStr (replyContent st) ]} ]}) |} ].
Proof.
  intros Hb. unfold handleSendReply. rewrite Hb. simpl.
  destruct r; reflexivity.
Qed.
End SendReply.

(** C1. At the scenario's input (message m1, reply text "Approved.") the
    send-reply handler posts one request to the reply route of m1, and the
    [content] field of its body is the object [{content: "Approved."}],
    not the text "Approved." itself. *)
Theorem sendReply_scenario_content_wrapped_twice :
  exists body : obj,
    requests (snd (EmailModal.handleSendReply Scenario.m1
                     Scenario.typed_approved (Resolved VNull))) =
      [ {| req_method := POST;
           req_endpoint := ApiReply (VStr (js "m1"));
           req_body := Some (VObj body) |} ] /\
    get body "content" = VObj {[ "content" := VStr (js "Approved.") ]} /\
    get body "content" <> VStr (js "Approved.").
Proof.
  eexists. split; [|split].
  - rewrite handleSendReply_request by reflexivity. reflexivity.
  - reflexivity.
  - discriminate.
Qed.

(** C3. A successful send sets [has_reply] of the record to [true], keeps
    every other field of it, and hands that record to [onUpdate]; a failed
    send leaves the record as it was (so an unreplied record stays
    unreplied) and calls [onUpdate] not at all. *)
Theorem handleSendReply_frame (email : obj) (st : EmailModal.State)
    (resp : value) (error : AxiosError)
    (Htext : truthy (VStr (trim (EmailModal.replyContent st))) = true) :
  let sent := EmailModal.handleSendReply email st (Resolved resp) in
  let failed := EmailModal.handleSendReply email st (Rejected error) in
  (get (EmailModal.emailDetails (fst sent)) "has_reply" = VBool true /\
   (forall k : string, k <> "has_reply" ->
      EmailModal.emailDetails (fst sent) !! k = EmailModal.emailDetails st !! k) /\
   List.filter is_update (snd sent) =
     [OnUpdate (EmailModal.emailDetails (fst sent))]) /\
  (EmailModal.emailDetails (fst failed) = EmailModal.emailDetails st /\
   get (EmailModal.emailDetails (fst failed)) "has_reply" =
     get (EmailModal.emailDetails st) "has_reply" /\
   List.filter is_update (snd failed) = []).
Proof.
  unfold EmailModal.handleSendReply. rewrite Htext. simpl. repeat split.
  - apply get_spread_set_eq.
  - intros k Hk. by apply lookup_spread_set_ne.
Qed.

Lemma handleSendReply_frame_witness :
  truthy (VStr (trim (EmailModal.replyContent Scenario.typed_approved))) = true /\
  get (EmailModal.emailDetails
         (fst (EmailModal.handleSendReply Scenario.m1 Scenario.typed_approved
                 (Resolved VNull)))) "has_reply" = VBool true /\
  get (EmailModal.emailDetails
         (fst (EmailModal.handleSendReply Scenario.m1 Scenario.typed_approved
                 (Rejected Scenario.network_error)))) "has_reply" = VBool false.
Proof.
  split; [reflexivity|].
  pose proof (handleSendReply_frame Scenario.m1 Scenario.typed_approved VNull
                Scenario.network_error eq_refl) as [[Hs _] [_ [Hf _]]].
  split; [exact Hs|]. rewrite Hf. reflexivity.
Defined.

(** The list of the application takes the updated record in place of the
    entry with the same id; every other entry stays. *)
Lemma handleEmailUpdate_others (st : App.State) (updatedEmail e : obj) (i : nat) :
  App.emails st !! i = Some e ->
  strict_eq (get e "id") (get updatedEmail "id") = false ->
  App.emails (App.handleEmailUpdate st updatedEmail) !! i = Some e.
Proof.
  intros Hi Hne. unfold App.handleEmailUpdate. simpl.
  rewrite list_lookup_fmap, Hi. simpl. by rewrite Hne.
Qed.

Lemma handleEmailUpdate_length (st : App.State) (updatedEmail : obj) :
  length (App.emails (App.handleEmailUpdate st updatedEmail)) =
  length (App.emails st).
Proof. unfold App.handleEmailUpdate. simpl. apply length_map. Qed.

(** ** Regenerating a draft *)

(** The composer, and with it the Regenerate button, is drawn for an
    unreplied record only. *)
Lemma renderReply_replied (st : EmailModal.State) :
  truthy (get (EmailModal.emailDetails st) "has_reply") = true ->
  EmailModal.renderReply st = EmailModal.AlreadyReplied.
Proof. intros H. unfold EmailModal.renderReply. by rewrite H. Qed.

Lemma regenerateOffered_unreplied (st : EmailModal.State) :
  EmailModal.regenerateOffered st = true ->
  truthy (get (EmailModal.emailDetails st) "has_reply") = false.
Proof.
  unfold EmailModal.regenerateOffered, EmailModal.renderContent,
    EmailModal.renderReply.
  destruct (EmailModal.loading st); [discriminate|].
  destruct (EmailModal.activeTab st); try discriminate.
  by destruct (truthy _).
Qed.

(** The handler writes the reply text of the composer; the record of the
    modal is out of its reach. *)
Lemma handleRegenerateReply_record (email : obj) (st : EmailModal.State)
    (r : settled RegenerateResponse) :
  EmailModal.emailDetails (fst (EmailModal.handleRegenerateReply email st r)) =
  EmailModal.emailDetails st.
Proof. by destruct r. Qed.

(** C2. For a stored message with [has_reply = true], [regenerate_draft]
    fails with [AlreadyReplied] and returns the store as it was, whatever
    the health check and the drafter say; and for the record of such a
    message the modal does not offer Regenerate, nor does its handler ever
    touch the record's [draft_reply]. *)
Theorem regenerate_draft_guard (is_available : bool)
    (regenerate : Core.Message -> jsstring) (id : string)
    (store : gmap string Core.Message) (m : Core.Message)
    (email : obj) (st : EmailModal.State) (r : settled RegenerateResponse)
    (Hstored : store !! id = Some m)
    (Hreplied : Core.has_reply m = true)
    (Hshown : truthy (get (EmailModal.emailDetails st) "has_reply") = true) :
  Core.regenerate_draft is_available regenerate id store =
    (store, inl Core.AlreadyReplied) /\
  EmailModal.regenerateOffered st = false /\
  get (EmailModal.emailDetails
         (fst (EmailModal.handleRegenerateReply email st r))) "draft_reply" =
    get (EmailModal.emailDetails st) "draft_reply".
Proof.
  split; [|split].
  - unfold Core.regenerate_draft. by rewrite Hstored, Hreplied.
  - destruct (EmailModal.regenerateOffered st) eqn:Hoff; [|done].
    apply regenerateOffered_unreplied in Hoff. congruence.
  - by rewrite handleRegenerateReply_record.
Qed.

Lemma regenerate_draft_guard_witness :
  Core.regenerate_draft true (fun _ => js "Sure.") "m1"
    {[ "m1" := Scenario.m1_replied ]} =
    ({[ "m1" := Scenario.m1_replied ]}, inl Core.AlreadyReplied) /\
  EmailModal.regenerateOffered
    (fst (EmailModal.handleSendReply Scenario.m1 Scenario.typed_approved
            (Resolved VNull))) = false.
Proof.
  pose proof (regenerate_draft_guard true (fun _ => js "Sure.") "m1"
                {[ "m1" := Scenario.m1_replied ]} Scenario.m1_replied
                Scenario.m1
                (fst (EmailModal.handleSendReply Scenario.m1
                        Scenario.typed_approved (Resolved VNull)))
                (Resolved {| resp_draft_reply := js "Sure." |})
                eq_refl eq_refl eq_refl) as [H1 [H2 _]].
  split; [exact H1 | exact H2].
Defined.

(** Before the reply of the scenario goes out the button is there; once
    it went out the button is gone. *)
Lemma regenerateOffered_scenario :
  EmailModal.regenerateOffered Scenario.typed_approved = true /\
  EmailModal.regenerateOffered
    (fst (EmailModal.handleSendReply Scenario.m1 Scenario.typed_approved
            (Resolved VNull))) = false.
Proof. split; reflexivity. Qed.

(** ** Starting a sync *)

(** C4. While the application holds the inference back end for
    unavailable, or the user for unauthenticated, the sync trigger sends
    no request at all (in particular no sync request) and leaves the state
    alone; both Sync buttons are out of reach in that state. *)
Theorem handleSync_short_circuit (st : App.State) (synced : settled obj)
    (loaded : settled EmailsResponse) (collapsed : bool)
    (Hdown : truthy (App.authenticated st) = false \/
             truthy (App.ollamaStatus st) = false) :
  List.filter is_sync_request (snd (App.handleSync st synced loaded)) = [] /\
  requests (snd (App.handleSync st synced loaded)) = [] /\
  fst (App.handleSync st synced loaded) = st /\
  App.syncButtonDisabled st = true /\
  Sidebar.syncClickable collapsed st = false.
Proof.
  unfold App.handleSync, App.syncButtonDisabled, Sidebar.syncClickable,
    Sidebar.syncButton.
  destruct (truthy (App.authenticated st)) eqn:Ha,
           (truthy (App.ollamaStatus st)) eqn:Ho;
    destruct Hdown as [H|H]; try discriminate H;
    destruct collapsed, (App.syncing st); simpl; auto.
Qed.

(** A status poll that reports the back end down puts the application in
    that state. *)
Lemma checkStatus_down (st : App.State) (status : obj) :
  truthy (get status "ollama_status") = false ->
  truthy (App.ollamaStatus (fst (App.checkStatus st (Resolved status)))) = false.
Proof. intros H. exact H. Qed.

Lemma handleSync_short_circuit_witness :
  truthy (App.ollamaStatus Scenario.ollama_down) = false /\
  requests (snd (App.handleSync Scenario.ollama_down
                   (Resolved ∅) (Resolved {| resp_emails := None |}))) = [].
Proof.
  split; [reflexivity|].
  apply (handleSync_short_circuit Scenario.ollama_down (Resolved ∅)
           (Resolved {| resp_emails := None |}) false).
  right. reflexivity.
Defined.

(** With both flags up the trigger does start a sync: the guard is what
    holds it back. *)
Lemma handleSync_runs (st : App.State) (synced : settled obj)
    (loaded : settled EmailsResponse) :
  truthy (App.authenticated st) = true ->
  truthy (App.ollamaStatus st) = true ->
  List.filter is_sync_request (snd (App.handleSync st synced loaded)) =
    [Http Api.syncEmails].
Proof.
  intros Ha Ho. unfold App.handleSync. rewrite Ha, Ho. simpl.
  destruct synced; [|reflexivity].
  destruct loaded; reflexivity.
Qed.

(** ** The status record *)

(** C6 as stated fails: a status record shaped after the contract
    (authenticated, inference_available, last_sync) with the back end
    available leaves the application's availability flag [undefined]; the
    flag is not read under the name [inference_available]. *)
Lemma checkStatus_not_inference_available :
  ~ (forall (st : App.State) (status : obj),
       App.ollamaStatus (fst (App.checkStatus st (Resolved status))) =
       get status "inference_available").
Proof.
  intros H. specialize (H App.initial Scenario.contract_status).
  vm_compute in H. discriminate H.
Qed.

(** C6, amended. [getStatus] is a GET of the status route; of its result
    the application reads [authenticated] and, for the availability of the
    inference back end, [ollama_status]; the debug dashboard reads
    [authenticated], [ollama_status] and [last_sync]. *)
Theorem status_fields_read (st : App.State) (status : obj) :
  requests (snd (App.checkStatus st (Resolved status))) =
    [ {| req_method := GET; req_endpoint := ApiStatus; req_body := None |} ] /\
  App.authenticated (fst (App.checkStatus st (Resolved status))) =
    get status "authenticated" /\
  App.ollamaStatus (fst (App.checkStatus st (Resolved status))) =
    get status "ollama_status" /\
  fst (DebugDashboard.authenticationCard (Some status)) =
    (if truthy (get status "authenticated")
     then DebugDashboard.Green else DebugDashboard.Red) /\
  fst (DebugDashboard.ollamaCard (Some status)) =
    (if truthy (get status "ollama_status")
     then DebugDashboard.Green else DebugDashboard.Red) /\
  DebugDashboard.lastSyncCard (Some status) =
    (if truthy (get status "last_sync")
     then Some (get status "last_sync") else None).
Proof.
  unfold DebugDashboard.authenticationCard, DebugDashboard.ollamaCard,
    DebugDashboard.lastSyncCard. simpl.
  repeat split;
    try (destruct (truthy (get status "authenticated")); reflexivity);
    try (destruct (truthy (get status "ollama_status")); reflexivity).
Qed.

(** ** The counts of the sidebar *)

Lemma or_zero_id (n : nat) : Sidebar.or_zero n = n.
Proof. by destruct n. Qed.

Lemma filter_split_length {A : Type} (p : A -> bool) (l : list A) :
  (length (List.filter (fun x => negb (p x)) l) + length (List.filter p l) =
   length l)%nat.
Proof.
  induction l as [|a l IH]; [reflexivity|].
  simpl. destruct (p a); simpl; lia.
Qed.

(** C10. The three counts the sidebar shows for the application's list:
    "Needs Reply" plus "Replied" makes "All Emails", which is the length
    of the list, and "Replied" counts the emails whose [has_reply] is
    truthy. *)
Theorem sidebar_counts_partition (st : App.State) :
  let items := Sidebar.menuItems (Some (App.emailCount st)) in
  (Sidebar.shownCount "unreplied" items + Sidebar.shownCount "replied" items =
   Sidebar.shownCount "all" items)%nat /\
  Sidebar.shownCount "all" items = length (App.emails st) /\
  Sidebar.shownCount "replied" items =
    length (List.filter (fun e => truthy (get e "has_reply")) (App.emails st)) /\
  Sidebar.shownCount "unreplied" items =
    length (List.filter (fun e => negb (truthy (get e "has_reply")))
                        (App.emails st)).
Proof.
  intros items.
  assert (Hall : Sidebar.shownCount "all" items = length (App.emails st))
    by (unfold items; cbn; apply or_zero_id).
  assert (Hr : Sidebar.shownCount "replied" items =
               length (List.filter (fun e => truthy (get e "has_reply"))
                         (App.emails st)))
    by (unfold items; cbn; apply or_zero_id).
  assert (Hu : Sidebar.shownCount "unreplied" items =
               length (List.filter (fun e => negb (truthy (get e "has_reply")))
                         (App.emails st)))
    by (unfold items; cbn; apply or_zero_id).
  rewrite Hall, Hr, Hu. repeat split.
  apply filter_split_length.
Qed.

(** ** The summary tab *)

Section Trim.
Lemma trimStart_nil_iff (s : jsstring) :
  trimStart s = [] <-> forallb is_space s = true.
Proof.
  induction s as [|c s IH]; simpl; [done|].
  destruct (is_space c); simpl; [exact IH|]. split; discriminate.
Qed.


Lemma trimStart_snoc_nonspace (s : jsstring) (c : N) :
  is_space c = false -> trimStart (s ++ [c]) <> [].
Proof.
  intros Hc. induction s as [|d s IH]; simpl.
  - by rewrite Hc.
  - destruct (is_space d); [exact IH | discriminate].
Qed.

(** [line.trim()] is falsy exactly for a blank line. *)
Lemma trim_truthy (line : jsstring) :
  truthy (VStr (trim line)) = negb (EmailModal.blank line).
Proof.
  unfold EmailModal.blank, trim, trimEnd.
  destruct (forallb is_space line) eqn:Hb.
  - apply trimStart_nil_iff in Hb. by rewrite Hb.
  - destruct (trimStart line) as [|c s] eqn:Hs.
    + apply trimStart_nil_iff in Hs. congruence.
    + assert (Hc : is_space c = false).
      { clear Hb. induction line as [|d line IH]; simpl in Hs; [done|].
        destruct (is_space d) eqn:Hd; [by apply IH|]. congruence. }
      simpl rev.
      pose proof (trimStart_snoc_nonspace (rev s) c Hc) as Hne.
      destruct (trimStart (rev s ++ [c])) as [|e t] eqn:Ht; [done|].
      simpl. by destruct (rev t ++ [e]) eqn:Hr; [destruct (rev t)|].
Qed.


(** The first bullet of a line that starts with it, white space aside,
    is the one [replace] removes. *)
Lemma replace_first_leading (ws rest : jsstring) :
  forallb is_space ws = true ->
  replace_first EmailModal.bullet (ws ++ EmailModal.bullet :: rest) =
  ws ++ rest.
Proof.
  induction ws as [|c ws IH]; simpl; [done|].
  intros [Hc Hws]%andb_prop.
  destruct (c =? EmailModal.bullet)%N eqn:Heq.
  - apply N.eqb_eq in Heq. subst c. discriminate Hc.
  - by rewrite IH.
Qed.
End Trim.

Lemma bullets_lines (lines : list jsstring) :
  EmailModal.bullets
    (EmailModal.SummaryLines (map EmailModal.renderSummaryLine lines)) =
  map (fun line => trim (replace_first EmailModal.bullet line))
      (List.filter (fun line => negb (EmailModal.blank line)) lines).
Proof.
  unfold EmailModal.bullets.
  induction lines as [|line lines IH]; [reflexivity|].
  simpl. unfold EmailModal.renderSummaryLine at 1.
  rewrite trim_truthy. destruct (negb (EmailModal.blank line)); simpl.
  - f_equal. exact IH.
  - exact IH.
Qed.

(** ** Sorting the dashboard *)

Section SortFacts.
Context {A B : Type}.

(** A comparator that cannot tell [f a] from [a] sorts the images the
    way it sorts the originals. *)
Lemma sort_insert_map (f : A -> B) (cmpA : A -> A -> completion number)
    (cmpB : B -> B -> completion number) (x : A) (l : list A) :
  (forall a b, cmpB (f a) (f b) = cmpA a b) ->
  sort_insert cmpB (f x) (map f l) = map f <$> sort_insert cmpA x l.
Proof.
  intros Hcmp. induction l as [|y l IH]; [reflexivity|].
  simpl. rewrite Hcmp. destruct (cmpA x y) as [v|e]; [|reflexivity].
  simpl. destruct (0 <? sort_order v); [|reflexivity].
  rewrite IH. by destruct (sort_insert cmpA x l).
Qed.

Lemma sort_map (f : A -> B) (cmpA : A -> A -> completion number)
    (cmpB : B -> B -> completion number) (l : list A) :
  (forall a b, cmpB (f a) (f b) = cmpA a b) ->
  Js.sort cmpB (map f l) = map f <$> Js.sort cmpA l.
Proof.
  intros Hcmp. induction l as [|x l IH]; [reflexivity|].
  simpl. rewrite IH. destruct (Js.sort cmpA l) as [s|e]; [|reflexivity].
  simpl. by apply sort_insert_map.
Qed.
End SortFacts.

Section SortedByKey.
Context {A : Type}.
Variable comparefn : A -> A -> completion number.
Variable key : A -> Z.
Variable ok : A -> Prop.

(** On the elements at hand the comparator returns, and its sign is
    that of [key b - key a]: larger keys first. *)
Hypothesis comparefn_key :
  forall a b, ok a -> ok b ->
    exists v, comparefn a b = Normal v /\ sort_order v = key b - key a.

Let before (a b : A) : Prop := key b <= key a.

Lemma sort_insert_sorted (x : A) (l : list A) :
  ok x -> Forall ok l -> StronglySorted before l ->
  exists r, sort_insert comparefn x l = Normal r /\
            Permutation r (x :: l) /\ StronglySorted before r.
Proof.
  intros Hx Hl Hs. induction l as [|y l IH].
  - exists [x]. repeat split; [done|]. repeat constructor.
  - apply Forall_cons in Hl as [Hy Hl].
    apply StronglySorted_inv in Hs as [Hs Hyl].
    destruct (comparefn_key x y Hx Hy) as (v & Hv & Hsign).
    simpl. rewrite Hv. simpl.
    destruct (0 <? sort_order v) eqn:Hgt.
    + destruct (IH Hl Hs) as (r & Hr & Hperm & Hsorted).
      rewrite Hr. simpl. exists (y :: r). split; [done|]. split.
      * rewrite Hperm. apply perm_swap.
      * constructor; [done|]. rewrite Hperm. constructor; [|done].
        unfold before. apply Z.ltb_lt in Hgt. lia.
    + exists (x :: y :: l). split; [done|]. split; [done|].
      apply Z.ltb_ge in Hgt.
      constructor; [by constructor|]. constructor.
      * unfold before. lia.
      * eapply Forall_impl; [exact Hyl|]. unfold before. intros z Hz. lia.
Qed.

Lemma sort_sorted (l : list A) :
  Forall ok l ->
  exists r, Js.sort comparefn l = Normal r /\
            Permutation r l /\ StronglySorted before r.
Proof.
  induction l as [|x l IH]; intros Hl.
  - exists []. repeat split; [done|constructor].
  - apply Forall_cons in Hl as [Hx Hl].
    destruct (IH Hl) as (s & Hs & Hperm & Hsorted).
    assert (Hoks : Forall ok s) by (by rewrite Hperm).
    destruct (sort_insert_sorted x s Hx Hoks Hsorted)
      as (r & Hr & Hperm' & Hsorted').
    exists r. simpl. rewrite Hs. simpl. split; [done|]. split; [|done].
    rewrite Hperm'. by constructor.
Qed.

Lemma sorted_lookup (l : list A) (i j : nat) (a b : A) :
  StronglySorted before l -> (i < j)%nat ->
  l !! i = Some a -> l !! j = Some b -> key b <= key a.
Proof.
  intros Hs. revert i j. induction Hs as [|x l Hs IH Hx]; intros i j Hij Hi Hj.
  - discriminate Hi.
  - destruct j as [|j]; [lia|]. simpl in Hj. destruct i as [|i].
    + simpl in Hi. injection Hi as <-.
      rewrite Forall_forall in Hx. apply Hx.
      by eapply list_elem_of_lookup_2.
    + simpl in Hi. apply (IH i j); [lia|done|done].
Qed.
End SortedByKey.

Section DashboardOrder.
Variable Date_parse : jsstring -> number.
Variable localeCompare : jsstring -> jsstring -> number.

Lemma compareEmails_priority (a b : obj) :
  Dashboard.compareEmails Date_parse localeCompare (js "priority") a b =
    Normal (num_sub (Dashboard.priorityOrder (get b "priority"))
                    (Dashboard.priorityOrder (get a "priority"))).
Proof. reflexivity. Qed.

Lemma compareEmails_timestamp (a b : obj) :
  Dashboard.compareEmails Date_parse localeCompare
    Dashboard.defaultSortBy a b =
    Normal (num_sub (Dashboard.received Date_parse b) (Dashboard.received Date_parse a)).
Proof. reflexivity. Qed.

Lemma compareEmails_dated (a b : obj) :
  Dashboard.dated Date_parse a -> Dashboard.dated Date_parse b ->
  exists v, Dashboard.compareEmails Date_parse localeCompare
              Dashboard.defaultSortBy a b = Normal v /\
            sort_order v =
              sort_order (Dashboard.received Date_parse b) - sort_order (Dashboard.received Date_parse a).
Proof.
  intros [ta Ha] [tb Hb]. eexists. split; [apply compareEmails_timestamp|].
  by rewrite Ha, Hb.
Qed.

Lemma earlier_sort_order (x y : number) :
  Dashboard.earlier x y -> sort_order x < sort_order y.
Proof. by destruct x, y. Qed.
End DashboardOrder.

(** C5. Under the priority ordering the comparator's two ranks are the
    table's entries for the [priority] field of the two emails as the back
    end sent them, and nothing else of an email is read: rewriting the
    emails by any function that keeps [priority] (their subjects, say)
    rewrites the displayed sequence by that function and leaves the order
    untouched. *)
Theorem priority_order_reads_backend_field
    (Date_parse : jsstring -> number)
    (localeCompare : jsstring -> jsstring -> number)
    (f : obj -> obj) (emails : list obj)
    (Hkeeps : forall e : obj, get (f e) "priority" = get e "priority") :
  (forall a b : obj,
     Dashboard.compareEmails Date_parse localeCompare (js "priority") a b =
       Normal (num_sub (Dashboard.priorityOrder (get b "priority"))
                       (Dashboard.priorityOrder (get a "priority")))) /\
  Dashboard.sortedEmails Date_parse localeCompare (js "priority") (map f emails) =
    map f <$> Dashboard.sortedEmails Date_parse localeCompare (js "priority") emails.
Proof.
  split; [intros a b; apply compareEmails_priority|].
  unfold Dashboard.sortedEmails. apply sort_map.
  intros a b. rewrite !compareEmails_priority. by rewrite !Hkeeps.
Qed.

Lemma priority_order_reads_backend_field_witness :
  (forall e : obj, get (Scenario.shout e) "priority" = get e "priority") /\
  Dashboard.sortedEmails Scenario.parse_nothing Scenario.collate_nothing
    (js "priority") (map Scenario.shout Scenario.inbox_priorities) =
  map Scenario.shout <$>
    Dashboard.sortedEmails Scenario.parse_nothing Scenario.collate_nothing
      (js "priority") Scenario.inbox_priorities.
Proof.
  assert (Hkeeps : forall e : obj,
            get (Scenario.shout e) "priority" = get e "priority").
  { intros e. unfold Scenario.shout, get, spread_set.
    rewrite lookup_insert_ne; [reflexivity | discriminate]. }
  split; [exact Hkeeps|].
  apply (priority_order_reads_backend_field Scenario.parse_nothing
           Scenario.collate_nothing Scenario.shout Scenario.inbox_priorities
           Hkeeps).
Defined.

(** The subject heuristic of [getPriority] ranks the first message of the
    example high and the second normal; the displayed order follows the
    stored field, which says the opposite. *)
Lemma getPriority_not_consulted :
  map (Dashboard.getPriority lower_latin) Scenario.inbox_priorities =
    [Normal (VStr (js "high")); Normal (VStr (js "normal"))] /\
  map (fun e => get e "id") <$>
    Dashboard.sortedEmails Scenario.parse_nothing Scenario.collate_nothing
      (js "priority") Scenario.inbox_priorities =
    Normal [VStr (js "b"); VStr (js "a")].
Proof. split; reflexivity. Qed.

(** C7 as stated fails.  Of three messages received at 1000, at no known
    time and at 2000, in that order in the list, the date ordering shows
    the three as they stand, the one of 1000 ahead of the later one of
    2000: against the undated message the comparator answers [NaN] in
    either direction, which the sort takes for "equal"; no two neighbours
    are out of order, and a sort that goes by neighbours (a run detection,
    an insertion sort) moves nothing. *)
Lemma sortedEmails_undated_not_newest_first :
  ~ (forall (Date_parse : jsstring -> number)
            (localeCompare : jsstring -> jsstring -> number)
            (emails shown : list obj),
       Dashboard.sortedEmails Date_parse localeCompare
         Dashboard.defaultSortBy emails = Normal shown ->
       Dashboard.newest_first Date_parse shown).
Proof.
  intros H.
  specialize (H Scenario.parse_nothing Scenario.collate_nothing
                Scenario.inbox_with_undated Scenario.inbox_with_undated
                eq_refl).
  unfold Dashboard.newest_first in H.
  specialize (H 2%nat 0%nat _ _ eq_refl eq_refl).
  assert (Hlt : (2 < 0)%nat); [apply H; vm_compute; reflexivity | lia].
Qed.

(** C7, amended. For every list of messages whose timestamps are all
    dates, the date ordering, which is the default, returns a
    rearrangement of the list in which every message stands before all
    messages with a strictly earlier timestamp. *)
Theorem sortedEmails_newest_first
    (Date_parse : jsstring -> number)
    (localeCompare : jsstring -> jsstring -> number)
    (emails : list obj)
    (Hdated : Forall (Dashboard.dated Date_parse) emails) :
  exists shown : list obj,
    Dashboard.sortedEmails Date_parse localeCompare
      Dashboard.defaultSortBy emails = Normal shown /\
    Permutation shown emails /\
    Dashboard.newest_first Date_parse shown.
Proof.
  destruct (sort_sorted
              (Dashboard.compareEmails Date_parse localeCompare
                 Dashboard.defaultSortBy)
              (fun e => sort_order (Dashboard.received Date_parse e))
              (Dashboard.dated Date_parse)
              (compareEmails_dated Date_parse localeCompare)
              emails Hdated) as (shown & Hsort & Hperm & Hsorted).
  exists shown. split; [exact Hsort|]. split; [exact Hperm|].
  intros i j x y Hi Hj Hearlier.
  apply earlier_sort_order in Hearlier.
  destruct (Nat.lt_trichotomy i j) as [Hlt|[Heq|Hgt]]; [exact Hlt| |].
  - subst j. rewrite Hi in Hj. injection Hj as <-. lia.
  - pose proof (sorted_lookup _ shown j i y x Hsorted Hgt Hj Hi) as Hle.
    simpl in Hle. lia.
Qed.

Lemma sortedEmails_newest_first_witness :
  Forall (Dashboard.dated Scenario.parse_nothing) Scenario.inbox_priorities /\
  exists shown : list obj,
    Dashboard.sortedEmails Scenario.parse_nothing Scenario.collate_nothing
      Dashboard.defaultSortBy Scenario.inbox_priorities = Normal shown /\
    Dashboard.newest_first Scenario.parse_nothing shown.
Proof.
  assert (Hdated : Forall (Dashboard.dated Scenario.parse_nothing)
                     Scenario.inbox_priorities).
  { repeat constructor; eexists; reflexivity. }
  split; [exact Hdated|].
  destruct (sortedEmails_newest_first Scenario.parse_nothing
              Scenario.collate_nothing Scenario.inbox_priorities Hdated)
    as (shown & Hsort & _ & Hnewest).
  exists shown. split; [exact Hsort | exact Hnewest].
Defined.

(** ** Sender initials *)

Section Initials.
Variable toUpperCase : jsstring -> jsstring.

(** A name of two or more parts, the first two of them not empty, gives
    the two initials in upper case. *)
Lemma getSenderInitials_two_parts (n : jsstring) (email : value)
    (c0 c1 : N) (p0 p1 : jsstring) (ps : list jsstring) :
  split 32 n = (c0 :: p0) :: (c1 :: p1) :: ps ->
  Api.getSenderInitials toUpperCase (VStr n) email =
    Normal (VStr (toUpperCase [c0; c1])).
Proof.
  intros Hsplit. unfold Api.getSenderInitials.
  destruct n as [|c n]; [discriminate Hsplit|].
  change (truthy (VStr (c :: n))) with true. cbv iota.
  by rewrite Hsplit.
Qed.

(** A name without a space gives its first letter in upper case. *)
Lemma getSenderInitials_one_part (n : jsstring) (email : value)
    (c0 : N) (p0 : jsstring) :
  split 32 n = [c0 :: p0] ->
  Api.getSenderInitials toUpperCase (VStr n) email =
    Normal (VStr (toUpperCase [c0])).
Proof.
  intros Hsplit. unfold Api.getSenderInitials.
  destruct n as [|c n]; [discriminate Hsplit|].
  change (truthy (VStr (c :: n))) with true. cbv iota.
  by rewrite Hsplit.
Qed.

(** Without a name, the first character of the address in upper case;
    without either, the question mark. *)
Lemma getSenderInitials_email (name : value) (c : N) (e : jsstring) :
  truthy name = false ->
  Api.getSenderInitials toUpperCase name (VStr (c :: e)) =
    Normal (VStr (toUpperCase [c])).
Proof. intros Hn. unfold Api.getSenderInitials. by rewrite Hn. Qed.

Lemma getSenderInitials_nobody (name email : value) :
  truthy name = false -> truthy email = false ->
  Api.getSenderInitials toUpperCase name email = Normal (VStr (js "?")).
Proof. intros Hn He. unfold Api.getSenderInitials. by rewrite Hn, He. Qed.
End Initials.

(** C9. The name "John  Smith", written with two spaces, splits into the
    parts "John", "" and "Smith"; the second part has no first character,
    and the function returns the upper-casing of "Jundefined", that is
    "JUNDEFINED", which is not made of first letters of parts.  The name
    " " splits into two empty parts, and the function throws a TypeError
    instead of returning. *)
Theorem getSenderInitials_empty_part :
  (forall toUpperCase : jsstring -> jsstring,
     Api.getSenderInitials toUpperCase (VStr (js "John  Smith"))
       (VStr (js "john@example.com")) =
       Normal (VStr (toUpperCase (js "Jundefined"))) /\
     Api.getSenderInitials toUpperCase (VStr (js " "))
       (VStr (js "john@example.com")) = Throw TypeError) /\
  Api.getSenderInitials upper_latin (VStr (js "John  Smith"))
    (VStr (js "john@example.com")) = Normal (VStr (js "JUNDEFINED")).
Proof.
  split; [intros toUpperCase; split; reflexivity | reflexivity].
Qed.

(* ===================================================================== *)
(** * Further properties of the components *)
(* ===================================================================== *)

(** ** Avatars *)

(** X1. For an address that is a non-empty string [getAvatarColor]
    returns one of the four colour classes, chosen by the first code unit
    alone; for the empty string it returns [undefined]. *)
Theorem getAvatarColor_class (c : N) (s : jsstring) :
  (exists cls : jsstring,
     Api.getAvatarColor (VStr (c :: s)) = Normal (VStr cls) /\
     cls ∈ Api.colors) /\
  Api.getAvatarColor (VStr (c :: s)) = Api.getAvatarColor (VStr [c]) /\
  Api.getAvatarColor (VStr []) = Normal VUndefined.
Proof.
  split; [|split; reflexivity].
  unfold Api.getAvatarColor.
  assert (Hlt : (N.to_nat (c mod N.of_nat (length Api.colors)) <
                 length Api.colors)%nat).
  { pose proof (N.mod_lt c (N.of_nat (length Api.colors))) as H.
    simpl in *. lia. }
  apply lookup_lt_is_Some_2 in Hlt as [cls Hcls].
  exists cls. rewrite Hcls. split; [reflexivity|].
  by eapply list_elem_of_lookup_2.
Qed.

(** X2. The header of the modal computes the avatar colour from
    [emailDetails.sender] on every render; that computation throws a
    TypeError exactly when the sender of the record is not a string, a
    record without sender included. *)
Theorem avatarColor_throws_iff (st : EmailModal.State) :
  (EmailModal.avatarColor st = Throw TypeError <->
   forall s : jsstring, get (EmailModal.emailDetails st) "sender" <> VStr s) /\
  (EmailModal.emailDetails st !! "sender" = None ->
   EmailModal.avatarColor st = Throw TypeError).
Proof.
  unfold EmailModal.avatarColor, get.
  split.
  - destruct (default VUndefined (EmailModal.emailDetails st !! "sender"))
      as [| |b|n|s|o]; simpl; try (split; [intros _ s; discriminate | done]).
    split; [|intros H; by destruct (H s)].
    destruct s; discriminate.
  - intros ->. reflexivity.
Qed.

(** ** Sender initials, by the shape of the name *)

Section Split.
Variable sep : N.

Lemma split_not_nil (s : jsstring) : split sep s <> [].
Proof.
  induction s as [|c s IH]; simpl; [done|].
  destruct (c =? sep)%N; [done|]. by destruct (split sep s).
Qed.

Lemma split_nosep (w : jsstring) :
  Forall (fun c => c <> sep) w -> split sep w = [w].
Proof.
  induction w as [|c w IH]; simpl; [done|].
  intros [Hc Hw]%Forall_cons. apply N.eqb_neq in Hc. rewrite Hc.
  by rewrite IH.
Qed.

Lemma split_app_sep (w r : jsstring) :
  Forall (fun c => c <> sep) w ->
  split sep (w ++ sep :: r) = w :: split sep r.
Proof.
  induction w as [|c w IH]; simpl.
  - intros _. by rewrite N.eqb_refl.
  - intros [Hc Hw]%Forall_cons. apply N.eqb_neq in Hc. rewrite Hc.
    by rewrite IH.
Qed.

(** The first part is empty exactly for a text that is empty or starts
    with the separator. *)
Lemma split_head_nil (s : jsstring) (ps : list jsstring) :
  split sep s = [] :: ps -> s = [] \/ exists r, s = sep :: r.
Proof.
  destruct s as [|c s]; [by left|]. simpl.
  destruct (N.eqb_spec c sep) as [->|Hne]; [right; by eexists|].
  by destruct (split sep s).
Qed.

Lemma split_head_cons (c : N) (r : jsstring) :
  c <> sep -> exists p ps, split sep (c :: r) = (c :: p) :: ps.
Proof.
  intros Hc. simpl. apply N.eqb_neq in Hc. rewrite Hc.
  destruct (split sep r) as [|p ps]; by eauto.
Qed.
End Split.

(** X3. For a name that is a non-empty string [getSenderInitials] throws
    (a TypeError) exactly when the name is a single space or begins with
    two spaces; it returns for every other name. *)
Theorem getSenderInitials_throws_iff (toUpperCase : jsstring -> jsstring)
    (n : jsstring) (email : value) (Hname : n <> []) :
  Api.getSenderInitials toUpperCase (VStr n) email = Throw TypeError <->
  n = [32%N] \/ exists rest, n = 32%N :: 32%N :: rest.
Proof.
  destruct n as [|c s]; [done|]. clear Hname.
  unfold Api.getSenderInitials.
  change (truthy (VStr (c :: s))) with true. cbv iota.
  destruct (N.eqb_spec c 32) as [->|Hc].
  - change (split 32 (32%N :: s)) with ([] :: split 32 s).
    destruct (split 32 s) as [|p1 ps] eqn:Hs; [by apply split_not_nil in Hs|].
    destruct p1 as [|d p1]; simpl.
    + split; [intros _|done].
      apply split_head_nil in Hs as [->|[r ->]]; [by left | right; by eexists].
    + split; [discriminate|].
      intros [[= ->]|[rest [= ->]]]; simpl in Hs; discriminate Hs.
  - split.
    + destruct (split_head_cons 32 c s Hc) as (p & ps & ->).
      destruct ps; discriminate.
    + intros [[= ->]|[rest [= -> _]]]; done.
Qed.

Lemma getSenderInitials_throws_iff_witness :
  js "  Ann" <> [] /\
  Api.getSenderInitials upper_latin (VStr (js "  Ann")) VNull = Throw TypeError.
Proof.
  split; [discriminate|].
  apply (getSenderInitials_throws_iff upper_latin (js "  Ann") VNull);
    [discriminate | right; by eexists].
Defined.

(** X4. A name without any space gives its first character in upper
    case, whatever the address. *)
Theorem getSenderInitials_single_word (toUpperCase : jsstring -> jsstring)
    (c : N) (w : jsstring) (email : value)
    (Hword : Forall (fun d => d <> 32%N) (c :: w)) :
  Api.getSenderInitials toUpperCase (VStr (c :: w)) email =
    Normal (VStr (toUpperCase [c])).
Proof.
  unfold Api.getSenderInitials.
  change (truthy (VStr (c :: w))) with true. cbv iota.
  by rewrite (split_nosep 32 (c :: w) Hword).
Qed.

Lemma getSenderInitials_single_word_witness :
  Forall (fun d => d <> 32%N) (js "madonna") /\
  Api.getSenderInitials upper_latin (VStr (js "madonna")) VNull =
    Normal (VStr (js "M")).
Proof.
  assert (H : Forall (fun d => d <> 32%N) (js "madonna")).
  { repeat constructor; discriminate. }
  split; [exact H|].
  exact (getSenderInitials_single_word upper_latin _ _ VNull H).
Defined.

(** X5. A name that starts with a word, a space and a character that is
    no space gives the first characters of the first and of the second
    word, in upper case; what follows (third names, further spaces) does
    not count. *)
Theorem getSenderInitials_first_two_words
    (toUpperCase : jsstring -> jsstring)
    (c0 : N) (w : jsstring) (c1 : N) (rest : jsstring) (email : value)
    (Hword : Forall (fun d => d <> 32%N) (c0 :: w))
    (Hsecond : c1 <> 32%N) :
  Api.getSenderInitials toUpperCase
    (VStr ((c0 :: w) ++ 32%N :: c1 :: rest)) email =
    Normal (VStr (toUpperCase [c0; c1])).
Proof.
  unfold Api.getSenderInitials.
  change (truthy (VStr ((c0 :: w) ++ 32%N :: c1 :: rest))) with true.
  cbv iota. rewrite (split_app_sep 32 (c0 :: w) (c1 :: rest) Hword).
  destruct (split_head_cons 32 c1 rest Hsecond) as (p & ps & ->).
  reflexivity.
Qed.

Lemma getSenderInitials_first_two_words_witness :
  Forall (fun d => d <> 32%N) (js "Ada") /\ 76%N <> 32%N /\
  Api.getSenderInitials upper_latin (VStr (js "Ada Lovelace  King")) VNull =
    Normal (VStr (js "AL")).
Proof.
  assert (H : Forall (fun d => d <> 32%N) (js "Ada")).
  { repeat constructor; discriminate. }
  assert (H1 : 76%N <> 32%N) by discriminate.
  split; [exact H|]. split; [exact H1|].
  exact (getSenderInitials_first_two_words upper_latin 65%N (js "da") 76%N
           (js "ovelace  King") VNull H H1).
Defined.

(** ** The texts of the summary tab *)

Section TrimEnds.
Lemma trimStart_suffix (s : jsstring) :
  exists ws, s = ws ++ trimStart s.
Proof.
  induction s as [|c s [ws IH]]; [by exists []|]. simpl.
  destruct (is_space c); [|by exists []].
  exists (c :: ws). simpl. by rewrite <- IH.
Qed.

Lemma trimStart_head (s r : jsstring) (c : N) :
  trimStart s = c :: r -> is_space c = false.
Proof.
  induction s as [|d s IH]; simpl; [discriminate|].
  destruct (is_space d) eqn:Hd; [exact IH|]. by intros [= <- _].
Qed.

Lemma trim_first (s post : jsstring) (c : N) :
  trim s = c :: post -> is_space c = false.
Proof.
  unfold trim, trimEnd. intros Ht.
  destruct (trimStart_suffix (rev (trimStart s))) as [ws Hws].
  apply (f_equal (@rev N)) in Hws.
  rewrite rev_involutive, rev_app_distr, Ht in Hws. simpl in Hws.
  by eapply trimStart_head.
Qed.

Lemma trim_last (s pre : jsstring) (c : N) :
  trim s = pre ++ [c] -> is_space c = false.
Proof.
  unfold trim, trimEnd. intros Ht.
  apply (f_equal (@rev N)) in Ht.
  rewrite rev_involutive, rev_app_distr in Ht. simpl in Ht.
  by eapply trimStart_head.
Qed.

Lemma trim_spaces (ws : jsstring) :
  forallb is_space ws = true -> trim ws = [].
Proof.
  intros H. unfold trim, trimEnd.
  apply trimStart_nil_iff in H. by rewrite H.
Qed.

Lemma replace_first_absent (c : N) (s : jsstring) :
  Forall (fun d => d <> c) s -> replace_first c s = s.
Proof.
  induction s as [|d s IH]; simpl; [done|].
  intros [Hd Hs]%Forall_cons. apply N.eqb_neq in Hd. rewrite Hd.
  by rewrite IH.
Qed.

Lemma replace_first_app (c : N) (pre post : jsstring) :
  Forall (fun d => d <> c) pre ->
  replace_first c (pre ++ c :: post) = pre ++ post.
Proof.
  induction pre as [|d pre IH]; simpl.
  - intros _. by rewrite N.eqb_refl.
  - intros [Hd Hs]%Forall_cons. apply N.eqb_neq in Hd. rewrite Hd.
    by rewrite IH.
Qed.

Lemma blank_app (s t : jsstring) :
  EmailModal.blank (s ++ t) = EmailModal.blank s && EmailModal.blank t.
Proof. unfold EmailModal.blank. apply forallb_app. Qed.
End TrimEnds.

(** X6. No bullet paragraph of a rendered summary begins or ends with
    white space. *)
Theorem bullets_trimmed (summary : jsstring) (view : EmailModal.summaryView)
    (t : jsstring)
    (Hview : EmailModal.renderSummary (VStr summary) = Normal view)
    (Ht : t ∈ EmailModal.bullets view) :
  (forall (c : N) (post : jsstring), t = c :: post -> is_space c = false) /\
  (forall (pre : jsstring) (c : N), t = pre ++ [c] -> is_space c = false).
Proof.
  assert (Htrim : exists line, t = trim line).
  { destruct summary as [|c s]; simpl in Hview; injection Hview as <-.
    - by apply elem_of_nil in Ht.
    - rewrite bullets_lines in Ht.
      apply list_elem_of_fmap in Ht as (line & -> & _). by eexists. }
  destruct Htrim as [line ->]. split.
  - intros c post H. by eapply trim_first.
  - intros pre c H. by eapply trim_last.
Qed.

Lemma bullets_trimmed_witness :
  EmailModal.renderSummary (VStr (js "  - review budget  ")) =
    Normal (EmailModal.SummaryLines
              [EmailModal.BulletItem (js "- review budget")]) /\
  (forall (c : N) (post : jsstring),
     js "- review budget" = c :: post -> is_space c = false).
Proof.
  split; [reflexivity|].
  apply (bullets_trimmed (js "  - review budget  ")
           (EmailModal.SummaryLines
              [EmailModal.BulletItem (js "- review budget")])
           (js "- review budget") eq_refl).
  apply list_elem_of_singleton. reflexivity.
Defined.

(** X7. It is the first bullet character of a line that goes, wherever it
    stands: a line with text before its first bullet is shown with the
    text before and the text after joined, then trimmed.  A line without
    the bullet character that is not blank is shown trimmed. *)
Theorem first_bullet_removed (pre post line : jsstring)
    (Hpre : Forall (fun d => d <> EmailModal.bullet) pre)
    (Hline : Forall (fun d => d <> EmailModal.bullet) line)
    (Hnonblank : EmailModal.blank line = false) :
  EmailModal.renderSummaryLine (pre ++ EmailModal.bullet :: post) =
    EmailModal.BulletItem (trim (pre ++ post)) /\
  EmailModal.renderSummaryLine line = EmailModal.BulletItem (trim line).
Proof.
  unfold EmailModal.renderSummaryLine. rewrite !trim_truthy. split.
  - rewrite blank_app. cbn [EmailModal.blank forallb].
    change (is_space EmailModal.bullet) with false.
    rewrite andb_false_r. simpl. by rewrite replace_first_app.
  - rewrite Hnonblank. simpl. by rewrite replace_first_absent.
Qed.

Lemma first_bullet_removed_witness :
  Forall (fun d => d <> EmailModal.bullet) (js "a ") /\
  Forall (fun d => d <> EmailModal.bullet) (js " plain line ") /\
  EmailModal.blank (js " plain line ") = false /\
  EmailModal.renderSummaryLine (js "a " ++ EmailModal.bullet :: js " b") =
    EmailModal.BulletItem (js "a  b") /\
  EmailModal.renderSummaryLine (js " plain line ") =
    EmailModal.BulletItem (js "plain line").
Proof.
  assert (H1 : Forall (fun d => d <> EmailModal.bullet) (js "a ")).
  { repeat constructor; discriminate. }
  assert (H2 : Forall (fun d => d <> EmailModal.bullet) (js " plain line ")).
  { repeat constructor; discriminate. }
  split; [exact H1|]. split; [exact H2|]. split; [reflexivity|].
  exact (first_bullet_removed (js "a ") (js " b") (js " plain line ")
           H1 H2 eq_refl).
Defined.

(** X8. A line that holds the bullet character and otherwise only white
    space is not blank: it is drawn as a bullet paragraph without text. *)
Theorem bare_bullet_line (ws ws' : jsstring)
    (Hws : forallb is_space ws = true) (Hws' : forallb is_space ws' = true) :
  EmailModal.renderSummaryLine (ws ++ EmailModal.bullet :: ws') =
    EmailModal.BulletItem [].
Proof.
  unfold EmailModal.renderSummaryLine. rewrite trim_truthy, blank_app.
  cbn [EmailModal.blank forallb].
  change (is_space EmailModal.bullet) with false.
  rewrite andb_false_r. simpl.
  rewrite replace_first_leading by done.
  rewrite trim_spaces; [done|]. by rewrite forallb_app, Hws, Hws'.
Qed.

Lemma bare_bullet_line_witness :
  forallb is_space (js " ") = true /\ forallb is_space (js "  ") = true /\
  EmailModal.renderSummary (VStr (js " " ++ EmailModal.bullet :: js "  ")) =
    Normal (EmailModal.SummaryLines [EmailModal.BulletItem []]).
Proof.
  split; [reflexivity|]. split; [reflexivity|].
  change (EmailModal.renderSummary
            (VStr (js " " ++ EmailModal.bullet :: js "  ")))
    with (Normal (EmailModal.SummaryLines
            [EmailModal.renderSummaryLine
               (js " " ++ EmailModal.bullet :: js "  ")])).
  by rewrite (bare_bullet_line (js " ") (js "  ") eq_refl eq_refl).
Defined.

(** ** Sending, failing and sending again *)

(** X9. A reply of nothing but white space is never sent: the handler
    issues no request and changes nothing, and the Send button is not on
    offer in the first place. *)
Theorem whitespace_reply_not_sent (email : obj) (st : EmailModal.State)
    (r : settled value)
    (Hblank : forallb is_space (EmailModal.replyContent st) = true) :
  requests (snd (EmailModal.handleSendReply email st r)) = [] /\
  fst (EmailModal.handleSendReply email st r) = st /\
  EmailModal.sendOffered st = false.
Proof.
  assert (Hfalsy : truthy (VStr (trim (EmailModal.replyContent st))) = false).
  { rewrite trim_truthy. unfold EmailModal.blank. by rewrite Hblank. }
  rewrite (handleSendReply_blank email st r Hfalsy). repeat split.
  unfold EmailModal.sendOffered, EmailModal.renderContent,
    EmailModal.renderReply.
  rewrite Hfalsy.
  destruct (EmailModal.loading st); [done|].
  destruct (EmailModal.activeTab st); try done.
  destruct (truthy (get (EmailModal.emailDetails st) "has_reply")); [done|].
  by rewrite orb_true_r.
Qed.

Lemma whitespace_reply_not_sent_witness :
  forallb is_space (js "   ") = true /\
  requests (snd (EmailModal.handleSendReply Scenario.m1
                   (EmailModal.set_replyContent Scenario.typed_approved
                      (js "   "))
                   (Resolved VNull))) = [].
Proof.
  split; [reflexivity|].
  apply (whitespace_reply_not_sent Scenario.m1
           (EmailModal.set_replyContent Scenario.typed_approved (js "   "))
           (Resolved VNull)).
  reflexivity.
Defined.

(** X10. A failed send costs the user nothing but the time: the modal is
    as before with [sending] lowered, the text is still there, and a
    second click sends the very request the first one sent. *)
Theorem failed_send_can_retry (email : obj) (st : EmailModal.State)
    (error : AxiosError) (again : settled value)
    (Htext : truthy (VStr (trim (EmailModal.replyContent st))) = true) :
  let failed := EmailModal.handleSendReply email st (Rejected error) in
  fst failed = EmailModal.set_sending st false /\
  EmailModal.replyContent (fst failed) = EmailModal.replyContent st /\
  requests (snd (EmailModal.handleSendReply email (fst failed) again)) =
    requests (snd failed).
Proof.
  intros failed.
  assert (Hst : fst failed = EmailModal.set_sending st false).
  { unfold failed, EmailModal.handleSendReply. by rewrite Htext. }
  split; [exact Hst|]. split; [by rewrite Hst|].
  rewrite (handleSendReply_request email (fst failed) again)
    by (rewrite Hst; exact Htext).
  unfold failed at 2.
  rewrite (handleSendReply_request email st (Rejected error) Htext).
  by rewrite Hst.
Qed.

Lemma failed_send_can_retry_witness :
  truthy (VStr (trim (EmailModal.replyContent Scenario.typed_approved))) = true /\
  EmailModal.replyContent
    (fst (EmailModal.handleSendReply Scenario.m1 Scenario.typed_approved
            (Rejected Scenario.network_error))) = js "Approved.".
Proof.
  split; [reflexivity|].
  pose proof (failed_send_can_retry Scenario.m1 Scenario.typed_approved
                Scenario.network_error (Resolved VNull) eq_refl)
    as (_ & Htext & _).
  exact Htext.
Defined.

(** X11. Once a reply went out the modal offers neither Send nor
    Regenerate for that record and drops the "Needs Reply" badge: the
    reply tab shows the notice, whichever cells the composer had. *)
Theorem sent_reply_not_resendable (email : obj) (st : EmailModal.State)
    (resp : value)
    (Htext : truthy (VStr (trim (EmailModal.replyContent st))) = true) :
  let st' := fst (EmailModal.handleSendReply email st (Resolved resp)) in
  EmailModal.renderReply st' = EmailModal.AlreadyReplied /\
  EmailModal.sendOffered st' = false /\
  EmailModal.regenerateOffered st' = false /\
  EmailModal.needsReplyBadge st' = false.
Proof.
  intros st'.
  assert (Hreplied : truthy (get (EmailModal.emailDetails st') "has_reply") = true).
  { unfold st', EmailModal.handleSendReply. rewrite Htext. simpl.
    by rewrite get_spread_set_eq. }
  assert (Hview : EmailModal.renderReply st' = EmailModal.AlreadyReplied)
    by (by apply renderReply_replied).
  split; [exact Hview|].
  unfold EmailModal.sendOffered, EmailModal.regenerateOffered,
    EmailModal.renderContent, EmailModal.needsReplyBadge.
  rewrite Hview, Hreplied.
  by destruct (EmailModal.loading st'), (EmailModal.activeTab st').
Qed.

Lemma sent_reply_not_resendable_witness :
  truthy (VStr (trim (EmailModal.replyContent Scenario.typed_approved))) = true /\
  EmailModal.sendOffered Scenario.typed_approved = true /\
  EmailModal.sendOffered
    (fst (EmailModal.handleSendReply Scenario.m1 Scenario.typed_approved
            (Resolved VNull))) = false.
Proof.
  split; [reflexivity|]. split; [reflexivity|].
  pose proof (sent_reply_not_resendable Scenario.m1 Scenario.typed_approved
                VNull eq_refl) as (_ & Hsend & _).
  exact Hsend.
Defined.

(** ** A sync from start to end *)

(** X12. With both flags up, a sync that succeeds is followed by one
    reload of the list.  When the reload fails the user gets the success
    toast of the sync and then the error toast of the reload, and the list
    stays; when it succeeds the list is the one of the response, or empty
    when the response names none.  A sync that fails is not followed by a
    reload: the list, the loading flag and the status flags stay. *)
Theorem handleSync_reload (st : App.State) (response : obj)
    (loaded : settled EmailsResponse) (error : AxiosError)
    (Hauth : truthy (App.authenticated st) = true)
    (Hup : truthy (App.ollamaStatus st) = true) :
  let res := App.handleSync st (Resolved response) loaded in
  let failed := App.handleSync st (Rejected error) loaded in
  requests (snd res) = [Api.syncEmails; Api.getEmails] /\
  App.syncing (fst res) = false /\ App.loading (fst res) = false /\
  App.authenticated (fst res) = App.authenticated st /\
  App.ollamaStatus (fst res) = App.ollamaStatus st /\
  match loaded with
  | Resolved r => App.emails (fst res) = default [] (resp_emails r)
  | Rejected _ =>
      App.emails (fst res) = App.emails st /\
      exists msg,
        List.filter (fun e => negb (is_request e)) (snd res) =
          [ToastSuccess msg; ConsoleError;
           ToastError (js "Failed to load emails")]
  end /\
  requests (snd failed) = [Api.syncEmails] /\
  fst failed = App.set_syncing st false.
Proof.
  intros res failed. unfold res, failed, App.handleSync.
  rewrite Hauth, Hup. simpl.
  destruct loaded; simpl; repeat split. by eexists.
Qed.

Lemma handleSync_reload_witness :
  truthy (App.authenticated Scenario.all_up) = true /\
  truthy (App.ollamaStatus Scenario.all_up) = true /\
  App.emails (fst (App.handleSync Scenario.all_up (Resolved ∅)
                     (Rejected Scenario.network_error))) =
    [Scenario.m1; Scenario.m2] /\
  App.emails (fst (App.handleSync Scenario.all_up (Resolved ∅)
                     (Resolved {| resp_emails := None |}))) = [].
Proof.
  split; [reflexivity|]. split; [reflexivity|].
  pose proof (handleSync_reload Scenario.all_up ∅
                (Rejected Scenario.network_error) Scenario.network_error
                eq_refl eq_refl)
    as (_ & _ & _ & _ & _ & (Hkept & _) & _).
  pose proof (handleSync_reload Scenario.all_up ∅
                (Resolved {| resp_emails := None |}) Scenario.network_error
                eq_refl eq_refl)
    as (_ & _ & _ & _ & _ & Hempty & _).
  split; [exact Hkept | exact Hempty].
Defined.

(** X13. The indicator of the header says "success" exactly in the states
    in which the trigger starts a sync, and exactly then the Sync button
    of the header is disabled by [syncing] alone. *)
Theorem serviceStatus_success_iff_sync (st : App.State)
    (synced : settled obj) (loaded : settled EmailsResponse) :
  (fst (App.getServiceStatus st) = js "success" <->
   List.filter is_sync_request (snd (App.handleSync st synced loaded)) =
     [Http Api.syncEmails]) /\
  (fst (App.getServiceStatus st) = js "success" ->
   App.syncButtonDisabled st = App.syncing st) /\
  (fst (App.getServiceStatus st) <> js "success" ->
   App.syncButtonDisabled st = true).
Proof.
  unfold App.getServiceStatus, App.syncButtonDisabled.
  destruct (truthy (App.authenticated st)) eqn:Ha;
    [destruct (truthy (App.ollamaStatus st)) eqn:Ho|]; simpl.
  - split; [|split; [intros _; by rewrite !orb_false_r | done]].
    split; [intros _; by apply handleSync_runs | done].
  - split; [|split; [discriminate | intros _; by rewrite orb_true_r]].
    unfold App.handleSync. rewrite Ha, Ho. simpl. split; discriminate.
  - split; [|split; [discriminate | intros _; by rewrite orb_true_r]].
    unfold App.handleSync. rewrite Ha. simpl. split; discriminate.
Qed.

(** ** Putting an updated record into the list *)

(** X14. Handing the same record to [handleEmailUpdate] twice is handing
    it once. *)
Theorem handleEmailUpdate_idempotent (st : App.State) (updatedEmail : obj) :
  App.handleEmailUpdate (App.handleEmailUpdate st updatedEmail) updatedEmail =
  App.handleEmailUpdate st updatedEmail.
Proof.
  unfold App.handleEmailUpdate, App.set_emails. simpl. f_equal.
  rewrite map_map. apply map_ext. intros e.
  destruct (strict_eq (get e "id") (get updatedEmail "id")) eqn:He.
  - by destruct (strict_eq (get updatedEmail "id") (get updatedEmail "id")).
  - by rewrite He.
Qed.

(** X15. A record whose id no entry of the list has changes nothing: an
    update never adds an entry. *)
Theorem handleEmailUpdate_unknown_id (st : App.State) (updatedEmail : obj)
    (Hunknown : Forall (fun e => strict_eq (get e "id")
                                   (get updatedEmail "id") = false)
                       (App.emails st)) :
  App.handleEmailUpdate st updatedEmail = st.
Proof.
  unfold App.handleEmailUpdate, App.set_emails. destruct st as [l ? ? ? ? ?].
  simpl in *. f_equal.
  induction Hunknown as [|e l He _ IH]; [done|].
  simpl. by rewrite He, IH.
Qed.

Lemma handleEmailUpdate_unknown_id_witness :
  Forall (fun e => strict_eq (get e "id")
                     (get (Scenario.message "m9" VNull VNull VNull) "id") = false)
         (App.emails Scenario.all_up) /\
  App.handleEmailUpdate Scenario.all_up
    (Scenario.message "m9" VNull VNull VNull) = Scenario.all_up.
Proof.
  assert (H : Forall (fun e => strict_eq (get e "id")
                     (get (Scenario.message "m9" VNull VNull VNull) "id") = false)
                (App.emails Scenario.all_up)).
  { repeat constructor. }
  split; [exact H|].
  exact (handleEmailUpdate_unknown_id Scenario.all_up _ H).
Defined.

(** X16. Ids are compared with [===], and two missing ids are equal: a
    record without id takes the place of every entry without id. *)
Theorem handleEmailUpdate_missing_id (st : App.State) (updatedEmail e : obj)
    (i : nat)
    (Hnoid : updatedEmail !! "id" = None)
    (He : e !! "id" = None)
    (Hi : App.emails st !! i = Some e) :
  App.emails (App.handleEmailUpdate st updatedEmail) !! i = Some updatedEmail.
Proof.
  unfold App.handleEmailUpdate. simpl.
  rewrite list_lookup_fmap, Hi. simpl. unfold get. by rewrite Hnoid, He.
Qed.

Lemma handleEmailUpdate_missing_id_witness :
  ({[ "has_reply" := VBool true ]} : obj) !! "id" = None /\
  ({[ "subject" := VStr (js "Draft") ]} : obj) !! "id" = None /\
  App.emails
    (App.handleEmailUpdate
       (App.set_emails Scenario.all_up
          [Scenario.m1; {[ "subject" := VStr (js "Draft") ]}])
       {[ "has_reply" := VBool true ]}) !! 1%nat =
    Some {[ "has_reply" := VBool true ]}.
Proof.
  split; [reflexivity|]. split; [reflexivity|].
  apply (handleEmailUpdate_missing_id
           (App.set_emails Scenario.all_up
              [Scenario.m1; {[ "subject" := VStr (js "Draft") ]}])
           {[ "has_reply" := VBool true ]}
           {[ "subject" := VStr (js "Draft") ]} 1%nat);
    reflexivity.
Defined.

Lemma filter_length_map_mono {A : Type} (p : A -> bool) (f : A -> A)
    (l : list A) :
  (forall x, p x = true -> p (f x) = true) ->
  (length (List.filter p l) <= length (List.filter p (map f l)))%nat.
Proof.
  intros Hmono. induction l as [|x l IH]; [done|]. simpl.
  destruct (p x) eqn:Hx.
  - rewrite (Hmono x Hx). simpl. lia.
  - destruct (p (f x)); simpl; lia.
Qed.

(** X17. What a successful send does to the list of the application: the
    record the modal hands to [onUpdate] keeps the number of entries,
    never lowers the "Replied" count, and leaves every entry that carries
    the id of the modal's record replied. *)
Theorem send_then_update (email : obj) (modal : EmailModal.State)
    (resp : value) (app : App.State)
    (Htext : truthy (VStr (trim (EmailModal.replyContent modal))) = true) :
  let updated :=
    EmailModal.emailDetails
      (fst (EmailModal.handleSendReply email modal (Resolved resp))) in
  let app' := App.handleEmailUpdate app updated in
  App.total (App.emailCount app') = App.total (App.emailCount app) /\
  (App.replied (App.emailCount app) <= App.replied (App.emailCount app'))%nat /\
  Forall (fun e =>
            strict_eq (get e "id")
              (get (EmailModal.emailDetails modal) "id") = true ->
            truthy (get e "has_reply") = true)
         (App.emails app').
Proof.
  intros updated app'.
  assert (Hreplied : truthy (get updated "has_reply") = true).
  { unfold updated, EmailModal.handleSendReply. rewrite Htext. simpl.
    by rewrite get_spread_set_eq. }
  assert (Hid : get updated "id" = get (EmailModal.emailDetails modal) "id").
  { unfold updated, EmailModal.handleSendReply. rewrite Htext. simpl.
    by apply get_spread_set_ne. }
  unfold app', App.emailCount, App.handleEmailUpdate. simpl.
  split; [apply length_map|]. split.
  - apply filter_length_map_mono. intros e He.
    by destruct (strict_eq (get e "id") (get updated "id")).
  - apply Forall_fmap, Forall_forall. intros e _. simpl.
    destruct (strict_eq (get e "id") (get updated "id")) eqn:He.
    + intros _. exact Hreplied.
    + rewrite <- Hid. congruence.
Qed.

Lemma send_then_update_witness :
  truthy (VStr (trim (EmailModal.replyContent Scenario.typed_approved))) = true /\
  App.replied (App.emailCount Scenario.all_up) = 1%nat /\
  (1 <= App.replied
          (App.emailCount
             (App.handleEmailUpdate Scenario.all_up
                (EmailModal.emailDetails
                   (fst (EmailModal.handleSendReply Scenario.m1
                           Scenario.typed_approved (Resolved VNull)))))))%nat.
Proof.
  split; [reflexivity|]. split; [reflexivity|].
  pose proof (send_then_update Scenario.m1 Scenario.typed_approved VNull
                Scenario.all_up eq_refl) as (_ & Hle & _).
  exact Hle.
Defined.

(** ** The list the dashboard is given *)

Section ArrayFilter.
Context {A : Type}.
Variable callback : A -> completion bool.

Lemma array_filter_Normal (l r : list A) :
  array_filter callback l = Normal r ->
  r = List.filter (accepted callback) l.
Proof.
  revert r. induction l as [|x l IH]; intros r; simpl.
  - by intros [= <-].
  - unfold accepted at 1.
    destruct (callback x) as [b|e]; simpl; [|discriminate].
    destruct (array_filter callback l) as [r'|e]; simpl; [|discriminate].
    intros [= <-]. rewrite <- (IH r' eq_refl). by destruct b.
Qed.

Lemma array_filter_pure (p : A -> bool) (l : list A) :
  (forall x, callback x = Normal (p x)) ->
  array_filter callback l = Normal (List.filter p l).
Proof.
  intros Hp. induction l as [|x l IH]; [done|].
  simpl. rewrite Hp, IH. simpl. by destruct (p x).
Qed.

Lemma array_filter_total (l : list A) :
  Forall (fun x => exists b, callback x = Normal b) l ->
  exists r, array_filter callback l = Normal r.
Proof.
  induction 1 as [|x l [b Hb] _ [r IH]]; [by eexists|].
  simpl. rewrite Hb, IH. simpl. by eexists.
Qed.
End ArrayFilter.

Lemma filter_sublist {A : Type} (p : A -> bool) (l : list A) :
  List.filter p l `sublist_of` l.
Proof.
  induction l as [|x l IH]; [done|]. simpl.
  destruct (p x); by constructor.
Qed.

Lemma filter_all {A : Type} (p : A -> bool) (l : list A) :
  (forall x, p x = true) -> List.filter p l = l.
Proof.
  intros Hp. induction l as [|x l IH]; [done|]. simpl.
  by rewrite Hp, IH.
Qed.

Lemma Forall_filter_true {A : Type} (p : A -> bool) (l : list A) :
  Forall (fun x => p x = true) (List.filter p l).
Proof.
  induction l as [|x l IH]; [done|]. simpl.
  destruct (p x) eqn:Hx; [by constructor | done].
Qed.

Section Filtering.
Variable toLowerCase : jsstring -> jsstring.

Lemma keeps_no_search (filter : jsstring) (e : obj) :
  App.keeps toLowerCase filter [] e =
    Normal (negb (bool_decide (filter = js "unreplied") &&
                  truthy (get e "has_reply")) &&
            negb (bool_decide (filter = js "replied") &&
                  negb (truthy (get e "has_reply")))).
Proof.
  unfold App.keeps.
  by destruct (bool_decide (filter = js "unreplied")),
              (bool_decide (filter = js "replied")),
              (truthy (get e "has_reply")).
Qed.

Lemma fieldIncludes_textual (e : obj) (k : string) (query : jsstring) :
  App.textual (get e k) = true ->
  exists b, App.fieldIncludes toLowerCase e k query = Normal b.
Proof.
  unfold App.fieldIncludes, App.textual, or_else.
  destruct (get e k) as [| |b|[|z]|s|o]; simpl; try by eauto.
  - destruct b; [discriminate | by eauto].
  - destruct (z =? 0); [by eauto | discriminate].
  - destruct s; by eauto.
Qed.

Lemma keeps_searchable (filter searchQuery : jsstring) (e : obj) :
  App.searchable e = true ->
  exists b, App.keeps toLowerCase filter searchQuery e = Normal b.
Proof.
  unfold App.searchable.
  intros [[H1 H2]%andb_prop H3]%andb_prop. unfold App.keeps.
  destruct (_ && _); [by eauto|].
  destruct (_ && _); [by eauto|].
  destruct (truthy (VStr searchQuery)); [|by eauto].
  destruct (fieldIncludes_textual e "subject" (toLowerCase searchQuery) H1)
    as [b1 ->]. simpl. destruct b1; [by eauto|].
  destruct (fieldIncludes_textual e "sender" (toLowerCase searchQuery) H2)
    as [b2 ->]. simpl. destruct b2; [by eauto|].
  by apply fieldIncludes_textual.
Qed.

Lemma accepted_status (filter searchQuery : jsstring) (e : obj) :
  accepted (App.keeps toLowerCase filter searchQuery) e = true ->
  (filter = js "unreplied" -> truthy (get e "has_reply") = false) /\
  (filter = js "replied" -> truthy (get e "has_reply") = true).
Proof.
  unfold accepted, App.keeps.
  destruct (truthy (get e "has_reply")); simpl.
  - rewrite andb_true_r, andb_false_r.
    case_bool_decide; [discriminate|]. by split.
  - rewrite andb_false_r, andb_true_r.
    case_bool_decide; [discriminate|]. by split.
Qed.
End Filtering.

(** X18. With the search box empty, each entry of the sidebar shows the
    number of emails the dashboard is given when that entry is selected;
    a filter value that is neither "unreplied" nor "replied" gives the
    whole list. *)
Theorem sidebar_count_is_view_length (toLowerCase : jsstring -> jsstring)
    (st : App.State) :
  let items := Sidebar.menuItems (Some (App.emailCount st)) in
  (forall id : string, In id ["all"; "unreplied"; "replied"] ->
     exists l, App.filteredEmails toLowerCase (js id) [] st = Normal l /\
               length l = Sidebar.shownCount id items) /\
  (forall filter : jsstring,
     filter <> js "unreplied" -> filter <> js "replied" ->
     App.filteredEmails toLowerCase filter [] st = Normal (App.emails st)).
Proof.
  intros items.
  assert (Hview : forall filter,
    App.filteredEmails toLowerCase filter [] st =
      Normal (List.filter
                (fun e => negb (bool_decide (filter = js "unreplied") &&
                                truthy (get e "has_reply")) &&
                          negb (bool_decide (filter = js "replied") &&
                                negb (truthy (get e "has_reply"))))
                (App.emails st))).
  { intros filter. unfold App.filteredEmails. apply array_filter_pure.
    intros e. apply keeps_no_search. }
  split.
  - intros id [<-|[<-|[<-|[]]]]; eexists; (split; [apply Hview|]).
    + transitivity (length (App.emails st));
        [|symmetry; unfold items; cbn; apply or_zero_id].
      f_equal. by apply filter_all.
    + transitivity (length (List.filter
                      (fun e => negb (truthy (get e "has_reply")))
                      (App.emails st)));
        [|symmetry; unfold items; cbn; apply or_zero_id].
      f_equal. apply filter_ext. intros e.
      by destruct (truthy (get e "has_reply")).
    + transitivity (length (List.filter
                      (fun e => truthy (get e "has_reply"))
                      (App.emails st)));
        [|symmetry; unfold items; cbn; apply or_zero_id].
      f_equal. apply filter_ext. intros e.
      by destruct (truthy (get e "has_reply")).
  - intros filter Hu Hr. rewrite Hview. f_equal.
    apply filter_all. intros e.
    by rewrite !bool_decide_eq_false_2 by done.
Qed.

(** X19. Whatever the filter and the search, the list handed to the
    dashboard is a sub-sequence of the application's list, in its order;
    under "unreplied" it holds no replied email and under "replied" only
    replied ones, so it is never longer than the count the sidebar shows
    for "all". *)
Theorem filteredEmails_sound (toLowerCase : jsstring -> jsstring)
    (filter searchQuery : jsstring) (st : App.State) (l : list obj)
    (Hview : App.filteredEmails toLowerCase filter searchQuery st = Normal l) :
  l `sublist_of` App.emails st /\
  (filter = js "unreplied" ->
   Forall (fun e => truthy (get e "has_reply") = false) l) /\
  (filter = js "replied" ->
   Forall (fun e => truthy (get e "has_reply") = true) l) /\
  (length l <=
   Sidebar.shownCount "all" (Sidebar.menuItems (Some (App.emailCount st))))%nat.
Proof.
  apply array_filter_Normal in Hview. subst l.
  pose proof (Forall_filter_true
                (accepted (App.keeps toLowerCase filter searchQuery))
                (App.emails st)) as Hacc.
  split; [apply filter_sublist|]. split; [|split].
  - intros Hf. eapply Forall_impl; [exact Hacc|]. intros e He.
    by apply (accepted_status toLowerCase filter searchQuery e He).
  - intros Hf. eapply Forall_impl; [exact Hacc|]. intros e He.
    by apply (accepted_status toLowerCase filter searchQuery e He).
  - cbn. rewrite or_zero_id. apply sublist_length, filter_sublist.
Qed.

Lemma filteredEmails_sound_witness :
  App.filteredEmails lower_latin (js "unreplied") (js "BUDGET")
    Scenario.all_up = Normal [Scenario.m1] /\
  Forall (fun e => truthy (get e "has_reply") = false) [Scenario.m1].
Proof.
  assert (H : App.filteredEmails lower_latin (js "unreplied") (js "BUDGET")
                Scenario.all_up = Normal [Scenario.m1]) by reflexivity.
  split; [exact H|].
  pose proof (filteredEmails_sound lower_latin (js "unreplied") (js "BUDGET")
                Scenario.all_up [Scenario.m1] H) as (_ & Hun & _).
  exact (Hun eq_refl).
Defined.

(** X20. The search never throws over emails whose subject, sender and
    summary are strings or falsy (missing, null, empty): the filtered list
    exists for every filter and every search text. *)
Theorem filteredEmails_total (toLowerCase : jsstring -> jsstring)
    (filter searchQuery : jsstring) (st : App.State)
    (Hfields : Forall (fun e => App.searchable e = true) (App.emails st)) :
  exists l, App.filteredEmails toLowerCase filter searchQuery st = Normal l.
Proof.
  unfold App.filteredEmails. apply array_filter_total.
  eapply Forall_impl; [exact Hfields|]. intros e He.
  by apply keeps_searchable.
Qed.

Lemma filteredEmails_total_witness :
  Forall (fun e => App.searchable e = true) (App.emails Scenario.all_up) /\
  exists l, App.filteredEmails lower_latin (js "all") (js "ann")
              Scenario.all_up = Normal l.
Proof.
  assert (H : Forall (fun e => App.searchable e = true)
                (App.emails Scenario.all_up)).
  { repeat constructor. }
  split; [exact H|].
  exact (filteredEmails_total lower_latin (js "all") (js "ann")
           Scenario.all_up H).
Defined.

(** X21. A search does throw as soon as it reaches an email whose subject
    is truthy and no string (a number, an object): with the filter on
    "all" and a search text, one such email in the list is enough. *)
Theorem filteredEmails_throws (toLowerCase : jsstring -> jsstring)
    (c : N) (searchQuery : jsstring) (st : App.State) (e : obj)
    (He : e ∈ App.emails st)
    (Hsubject : truthy (get e "subject") = true)
    (Hnostring : App.textual (get e "subject") = false) :
  App.filteredEmails toLowerCase (js "all") (c :: searchQuery) st =
    Throw TypeError.
Proof.
  unfold App.filteredEmails.
  assert (Hthrow : App.keeps toLowerCase (js "all") (c :: searchQuery) e =
                   Throw TypeError).
  { unfold App.keeps. simpl. unfold App.fieldIncludes, or_else.
    rewrite Hsubject. unfold App.textual in Hnostring.
    by destruct (get e "subject"). }
  induction (App.emails st) as [|x l IH]; [by apply elem_of_nil in He|].
  simpl. apply elem_of_cons in He as [<-|He].
  - by rewrite Hthrow.
  - destruct (App.keeps toLowerCase (js "all") (c :: searchQuery) x)
      as [b|[]]; [|done].
    simpl. by rewrite (IH He).
Qed.

Lemma filteredEmails_throws_witness :
  ({[ "subject" := VNum (Num 2024) ]} : obj) ∈
    App.emails (App.set_emails Scenario.all_up
                  [Scenario.m1; {[ "subject" := VNum (Num 2024) ]}]) /\
  App.filteredEmails lower_latin (js "all") (js "x")
    (App.set_emails Scenario.all_up
       [Scenario.m1; {[ "subject" := VNum (Num 2024) ]}]) = Throw TypeError.
Proof.
  assert (H : ({[ "subject" := VNum (Num 2024) ]} : obj) ∈
    App.emails (App.set_emails Scenario.all_up
                  [Scenario.m1; {[ "subject" := VNum (Num 2024) ]}])).
  { apply elem_of_cons. right. apply elem_of_cons. by left. }
  split; [exact H|].
  exact (filteredEmails_throws lower_latin 120%N [] _ _ H eq_refl eq_refl).
Defined.

(** ** The sidebar *)

(** In either layout the sidebar renders the Connect button or the Sync
    button, never both and never neither; without authentication there is
    no menu and no search box. *)
Lemma sidebar_connect_xor_sync (collapsed : bool)
    (authenticated ollamaStatus : value) (syncing : bool)
    (searchQuery : jsstring) (emailCount : option App.EmailCount) :
  (Sidebar.authButton collapsed authenticated = true <->
   Sidebar.syncButton collapsed authenticated ollamaStatus syncing = None) /\
  (Sidebar.authButton collapsed authenticated = true ->
   Sidebar.menu collapsed authenticated emailCount = [] /\
   Sidebar.searchBox collapsed authenticated searchQuery = None).
Proof.
  unfold Sidebar.authButton, Sidebar.syncButton, Sidebar.menu,
    Sidebar.searchBox.
  destruct collapsed, (truthy authenticated); simpl; split; try done;
    split; done.
Qed.

(** X22. At most one entry of the menu is drawn as selected, and one is
    exactly when the filter is "all", "unreplied" or "replied". *)
Theorem sidebar_one_selected (filter : jsstring)
    (emailCount : option App.EmailCount) :
  let selected := Sidebar.highlighted filter (Sidebar.menuItems emailCount) in
  (length selected <= 1)%nat /\
  (length selected = 1%nat <->
   filter = js "all" \/ filter = js "unreplied" \/ filter = js "replied") /\
  Forall (fun i => js (Sidebar.item_id i) = filter) selected.
Proof.
  unfold Sidebar.highlighted, Sidebar.menuItems.
  cbn [List.filter Sidebar.item_id].
  destruct (decide (filter = js "all")) as [->|Hall];
    [|destruct (decide (filter = js "unreplied")) as [->|Hunreplied];
      [|destruct (decide (filter = js "replied")) as [->|Hreplied]]].
  - simpl. split; [lia|]. split; [by split; auto|]. by repeat constructor.
  - simpl. split; [lia|]. split; [by split; auto|]. by repeat constructor.
  - simpl. split; [lia|]. split; [by split; auto|]. by repeat constructor.
  - rewrite !bool_decide_eq_false_2 by done. simpl.
    split; [lia|]. split; [|constructor].
    split; [discriminate | intros [?|[?|?]]; done].
Qed.

(** ** More on the order of the dashboard *)

Section SortTotal.
Context {A : Type}.
Variable comparefn : A -> A -> completion number.
Hypothesis comparefn_total : forall a b, exists v, comparefn a b = Normal v.

Lemma sort_insert_perm (x : A) (l : list A) :
  exists r, sort_insert comparefn x l = Normal r /\ Permutation r (x :: l).
Proof.
  induction l as [|y l (r & Hr & Hperm)]; [by exists [x]|].
  destruct (comparefn_total x y) as [v Hv]. simpl. rewrite Hv. simpl.
  destruct (0 <? sort_order v); [|by eexists].
  rewrite Hr. simpl. exists (y :: r). split; [done|].
  rewrite Hperm. apply perm_swap.
Qed.

Lemma sort_perm (l : list A) :
  exists r, Js.sort comparefn l = Normal r /\ Permutation r l.
Proof.
  induction l as [|x l (s & Hs & Hperm)]; [by exists []|].
  simpl. rewrite Hs. simpl.
  destruct (sort_insert_perm x s) as (r & Hr & Hperm').
  exists r. split; [done|]. rewrite Hperm'. by constructor.
Qed.
End SortTotal.

Section SortFixed.
Context {A : Type}.
Variable comparefn : A -> A -> completion number.
Variable key : A -> Z.
Variable ok : A -> Prop.
Hypothesis comparefn_key :
  forall a b, ok a -> ok b ->
    exists v, comparefn a b = Normal v /\ sort_order v = key b - key a.

(** A list that is in order already comes back as it is. *)
Lemma sort_sorted_fixed (l : list A) :
  Forall ok l -> StronglySorted (fun a b => key b <= key a) l ->
  Js.sort comparefn l = Normal l.
Proof.
  induction l as [|x l IH]; [done|].
  intros [Hx Hl]%Forall_cons [Hs Hxl]%StronglySorted_inv.
  simpl. rewrite (IH Hl Hs). simpl.
  destruct l as [|y l]; [done|].
  apply Forall_cons in Hl as [Hy _]. apply Forall_cons in Hxl as [Hxy _].
  destruct (comparefn_key x y Hx Hy) as (v & Hv & Hsign).
  simpl. rewrite Hv. simpl.
  by rewrite (proj2 (Z.ltb_ge 0 (sort_order v))) by lia.
Qed.
End SortFixed.

Section DashboardModes.
Variable Date_parse : jsstring -> number.
Variable localeCompare : jsstring -> jsstring -> number.

Lemma compareEmails_total (sortBy : jsstring) (a b : obj) :
  sortBy <> js "sender" ->
  exists v, Dashboard.compareEmails Date_parse localeCompare sortBy a b =
              Normal v.
Proof.
  intros Hs. unfold Dashboard.compareEmails.
  repeat case_bool_decide; by eauto.
Qed.

Lemma compareEmails_unknown (sortBy : jsstring) (a b : obj) :
  sortBy <> js "timestamp" -> sortBy <> js "priority" ->
  sortBy <> js "sender" ->
  Dashboard.compareEmails Date_parse localeCompare sortBy a b =
    Normal (Num 0).
Proof.
  intros H1 H2 H3. unfold Dashboard.compareEmails.
  by rewrite !bool_decide_eq_false_2 by done.
Qed.

Lemma compareEmails_ranked (a b : obj) :
  Dashboard.ranked a -> Dashboard.ranked b ->
  exists v, Dashboard.compareEmails Date_parse localeCompare
              (js "priority") a b = Normal v /\
            sort_order v = Dashboard.rank b - Dashboard.rank a.
Proof.
  intros [ra Ha] [rb Hb]. eexists.
  split; [apply compareEmails_priority|].
  unfold Dashboard.rank. by rewrite Ha, Hb.
Qed.
End DashboardModes.

(** X23. Ordering by date or by priority, and under any key besides
    "sender", never throws and never loses or doubles an email: the
    displayed sequence is a rearrangement of the list, even when
    timestamps or priorities are missing. *)
Theorem sortedEmails_rearranges
    (Date_parse : jsstring -> number)
    (localeCompare : jsstring -> jsstring -> number)
    (sortBy : jsstring) (emails : list obj)
    (Hkey : sortBy <> js "sender") :
  exists shown : list obj,
    Dashboard.sortedEmails Date_parse localeCompare sortBy emails =
      Normal shown /\
    Permutation shown emails /\ length shown = length emails.
Proof.
  destruct (sort_perm
              (Dashboard.compareEmails Date_parse localeCompare sortBy)
              (fun a b => compareEmails_total Date_parse localeCompare
                            sortBy a b Hkey)
              emails) as (shown & Hs & Hperm).
  exists shown. split; [exact Hs|]. split; [exact Hperm|].
  by apply Permutation_length.
Qed.

Lemma sortedEmails_rearranges_witness :
  js "priority" <> js "sender" /\
  exists shown : list obj,
    Dashboard.sortedEmails Scenario.parse_nothing Scenario.collate_nothing
      (js "priority") Scenario.inbox_with_undated = Normal shown /\
    length shown = 3%nat.
Proof.
  assert (H : js "priority" <> js "sender") by discriminate.
  split; [exact H|].
  destruct (sortedEmails_rearranges Scenario.parse_nothing
              Scenario.collate_nothing (js "priority")
              Scenario.inbox_with_undated H) as (shown & Hs & _ & Hlen).
  exists shown. split; [exact Hs | exact Hlen].
Defined.

(** X24. Under a sort key that is none of "timestamp", "priority" and
    "sender" the emails are displayed in the order of the list. *)
Theorem sortedEmails_unknown_key
    (Date_parse : jsstring -> number)
    (localeCompare : jsstring -> jsstring -> number)
    (sortBy : jsstring) (emails : list obj)
    (Htimestamp : sortBy <> js "timestamp")
    (Hpriority : sortBy <> js "priority")
    (Hsender : sortBy <> js "sender") :
  Dashboard.sortedEmails Date_parse localeCompare sortBy emails =
    Normal emails.
Proof.
  apply (sort_sorted_fixed
           (Dashboard.compareEmails Date_parse localeCompare sortBy)
           (fun _ => 0) (fun _ => True)).
  - intros a b _ _. exists (Num 0).
    split; [by apply compareEmails_unknown | done].
  - by apply Forall_true.
  - induction emails as [|e l IH]; constructor; [done|].
    by apply Forall_true.
Qed.

Lemma sortedEmails_unknown_key_witness :
  js "size" <> js "timestamp" /\ js "size" <> js "priority" /\
  js "size" <> js "sender" /\
  Dashboard.sortedEmails Scenario.parse_nothing Scenario.collate_nothing
    (js "size") Scenario.inbox_priorities = Normal Scenario.inbox_priorities.
Proof.
  assert (H1 : js "size" <> js "timestamp") by discriminate.
  assert (H2 : js "size" <> js "priority") by discriminate.
  assert (H3 : js "size" <> js "sender") by discriminate.
  split; [exact H1|]. split; [exact H2|]. split; [exact H3|].
  exact (sortedEmails_unknown_key Scenario.parse_nothing
           Scenario.collate_nothing (js "size") Scenario.inbox_priorities
           H1 H2 H3).
Defined.

(** X25. When every email carries a priority of the table (high, medium,
    normal), the priority ordering displays a rearrangement of the list in
    which no email stands behind one of lower rank: high first, then
    medium, then normal. *)
Theorem sortedEmails_by_rank
    (Date_parse : jsstring -> number)
    (localeCompare : jsstring -> jsstring -> number)
    (emails : list obj)
    (Hranked : Forall Dashboard.ranked emails) :
  exists shown : list obj,
    Dashboard.sortedEmails Date_parse localeCompare (js "priority") emails =
      Normal shown /\
    Permutation shown emails /\
    forall (i j : nat) (x y : obj),
      (i < j)%nat -> shown !! i = Some x -> shown !! j = Some y ->
      Dashboard.rank y <= Dashboard.rank x.
Proof.
  destruct (sort_sorted
              (Dashboard.compareEmails Date_parse localeCompare
                 (js "priority"))
              Dashboard.rank Dashboard.ranked
              (compareEmails_ranked Date_parse localeCompare)
              emails Hranked) as (shown & Hsort & Hperm & Hsorted).
  exists shown. split; [exact Hsort|]. split; [exact Hperm|].
  intros i j x y Hij Hi Hj.
  exact (sorted_lookup Dashboard.rank shown i j x y Hsorted Hij Hi Hj).
Qed.

Lemma sortedEmails_by_rank_witness :
  Forall Dashboard.ranked Scenario.inbox_priorities /\
  exists shown : list obj,
    Dashboard.sortedEmails Scenario.parse_nothing Scenario.collate_nothing
      (js "priority") Scenario.inbox_priorities = Normal shown /\
    Permutation shown Scenario.inbox_priorities.
Proof.
  assert (H : Forall Dashboard.ranked Scenario.inbox_priorities).
  { repeat constructor; eexists; reflexivity. }
  split; [exact H|].
  destruct (sortedEmails_by_rank Scenario.parse_nothing
              Scenario.collate_nothing Scenario.inbox_priorities H)
    as (shown & Hs & Hperm & _).
  exists shown. split; [exact Hs | exact Hperm].
Defined.

(** X26. Ordering by date is idempotent on dated emails: the displayed
    sequence, sorted once more, is the displayed sequence. *)
Theorem sortedEmails_idempotent
    (Date_parse : jsstring -> number)
    (localeCompare : jsstring -> jsstring -> number)
    (emails : list obj)
    (Hdated : Forall (Dashboard.dated Date_parse) emails) :
  exists shown : list obj,
    Dashboard.sortedEmails Date_parse localeCompare
      Dashboard.defaultSortBy emails = Normal shown /\
    Dashboard.sortedEmails Date_parse localeCompare
      Dashboard.defaultSortBy shown = Normal shown.
Proof.
  destruct (sort_sorted
              (Dashboard.compareEmails Date_parse localeCompare
                 Dashboard.defaultSortBy)
              (fun e => sort_order (Dashboard.received Date_parse e))
              (Dashboard.dated Date_parse)
              (compareEmails_dated Date_parse localeCompare)
              emails Hdated) as (shown & Hsort & Hperm & Hsorted).
  exists shown. split; [exact Hsort|].
  apply (sort_sorted_fixed
           (Dashboard.compareEmails Date_parse localeCompare
              Dashboard.defaultSortBy)
           (fun e => sort_order (Dashboard.received Date_parse e))
           (Dashboard.dated Date_parse)
           (compareEmails_dated Date_parse localeCompare)).
  - by rewrite Hperm.
  - exact Hsorted.
Qed.

Lemma sortedEmails_idempotent_witness :
  Forall (Dashboard.dated Scenario.parse_nothing) Scenario.inbox_priorities /\
  exists shown : list obj,
    Dashboard.sortedEmails Scenario.parse_nothing Scenario.collate_nothing
      Dashboard.defaultSortBy Scenario.inbox_priorities = Normal shown /\
    Dashboard.sortedEmails Scenario.parse_nothing Scenario.collate_nothing
      Dashboard.defaultSortBy shown = Normal shown.
Proof.
  assert (H : Forall (Dashboard.dated Scenario.parse_nothing)
                Scenario.inbox_priorities).
  { repeat constructor; eexists; reflexivity. }
  split; [exact H|].
  exact (sortedEmails_idempotent Scenario.parse_nothing
           Scenario.collate_nothing Scenario.inbox_priorities H).
Defined.

(** X27. For an authenticated user, once loading is over, a list that is
    not empty is drawn as one card per email: the cards are a
    rearrangement of the list, as many as the heading counts, and the
    "Load More" button is there from twenty emails on. *)
Theorem render_one_card_per_email
    (Date_parse : jsstring -> number)
    (localeCompare : jsstring -> jsstring -> number)
    (stats : value) (viewMode sortBy : jsstring) (e : obj)
    (emails : list obj) (authenticated : value)
    (Hkey : sortBy <> js "sender")
    (Hauth : truthy authenticated = true) :
  exists (totalCard : option value) (cards : list obj),
    Dashboard.render Date_parse localeCompare stats viewMode sortBy
      (e :: emails) false authenticated =
      Normal (Dashboard.Main totalCard (length cards)
                (Dashboard.Cards (bool_decide (viewMode = js "grid")) cards)
                (20 <=? length cards)%nat) /\
    Permutation cards (e :: emails).
Proof.
  destruct (sort_perm
              (Dashboard.compareEmails Date_parse localeCompare sortBy)
              (fun a b => compareEmails_total Date_parse localeCompare
                            sortBy a b Hkey)
              (e :: emails)) as (shown & Hs & Hperm).
  pose proof (Permutation_length Hperm) as Hlen.
  unfold Dashboard.render, Dashboard.sortedEmails. rewrite Hs.
  cbn [mbind completion_bind]. rewrite Hauth. cbn [negb].
  eexists _, shown. rewrite Hlen. split; [reflexivity | exact Hperm].
Qed.

Lemma render_one_card_per_email_witness :
  js "timestamp" <> js "sender" /\ truthy (VBool true) = true /\
  exists (totalCard : option value) (cards : list obj),
    Dashboard.render Scenario.parse_nothing Scenario.collate_nothing
      VNull (js "grid") (js "timestamp") Scenario.inbox_priorities false
      (VBool true) =
      Normal (Dashboard.Main totalCard (length cards)
                (Dashboard.Cards true cards) (20 <=? length cards)%nat).
Proof.
  assert (H : js "timestamp" <> js "sender") by discriminate.
  split; [exact H|]. split; [reflexivity|].
  destruct (render_one_card_per_email Scenario.parse_nothing
              Scenario.collate_nothing VNull (js "grid") (js "timestamp")
              (Scenario.message "a" (VNum (Num 1000)) (VStr (js "normal"))
                 (VStr (js "URGENT: server down")))
              [Scenario.message "b" (VNum (Num 2000)) (VStr (js "high"))
                 (VStr (js "Lunch"))]
              (VBool true) H eq_refl) as (totalCard & cards & Hr & _).
  exists totalCard, cards. exact Hr.
Defined.

(** ** The debug dashboard *)

(** X28. The debug tests ask in a fixed row and stop at the first
    failure: the requests made are an initial part of db-test,
    ollama-test, status, emails; nothing is posted; [loading] ends
    lowered.  When the Ollama test fails after a good database test, the
    database field is fresh while the Ollama, status and emails fields,
    and with them the status cards, are those of the run before. *)
Theorem runDebugTests_row (st : DebugDashboard.State)
    (dbTest ollamaTest statusGot : settled obj)
    (emailsGot : settled EmailsResponse) :
  let res := DebugDashboard.runDebugTests st dbTest ollamaTest statusGot
               emailsGot in
  DebugDashboard.gets (snd res) `prefix_of`
    [DebugDashboard.DbTest; DebugDashboard.OllamaTest;
     DebugDashboard.Status; DebugDashboard.Emails] /\
  DebugDashboard.posts (snd res) = [] /\
  DebugDashboard.loading (fst res) = false /\
  (forall (d : obj) (error : AxiosError),
     dbTest = Resolved d -> ollamaTest = Rejected error ->
     DebugDashboard.database (fst res) = Some d /\
     DebugDashboard.ollama (fst res) = DebugDashboard.ollama st /\
     DebugDashboard.status (fst res) = DebugDashboard.status st /\
     DebugDashboard.emails (fst res) = DebugDashboard.emails st /\
     DebugDashboard.ollamaCard (DebugDashboard.status (fst res)) =
       DebugDashboard.ollamaCard (DebugDashboard.status st) /\
     DebugDashboard.gets (snd res) =
       [DebugDashboard.DbTest; DebugDashboard.OllamaTest]).
Proof.
  intros res. unfold res.
  destruct dbTest as [d1|e1]; [destruct ollamaTest as [d2|e2];
    [destruct statusGot as [d3|e3]; [destruct emailsGot as [d4|e4]|]|]|];
    simpl; (split; [by eexists|]); (split; [done|]); (split; [done|]);
    intros d error Hd Ho; try discriminate.
  injection Hd as <-. done.
Qed.

(** X29. "Test Sync" of the debug dashboard posts the sync request in
    every state, whatever its own status cards show.  When the sync
    succeeds but the reload of the emails fails, the user is told "Sync
    failed" and the panel keeps its emails. *)
Theorem debug_sync_unguarded (st : DebugDashboard.State)
    (synced : settled obj) (emailsGot : settled EmailsResponse) :
  DebugDashboard.posts (snd (DebugDashboard.handleSync st synced emailsGot)) =
    [DebugDashboard.Sync] /\
  (forall (response : obj) (error : AxiosError),
     synced = Resolved response -> emailsGot = Rejected error ->
     fst (DebugDashboard.handleSync st synced emailsGot) = st /\
     DebugDashboard.alerts
       (snd (DebugDashboard.handleSync st synced emailsGot)) =
       [js "Sync failed: " ++ DebugDashboard.failureText error]).
Proof.
  destruct synced as [response|e]; [destruct emailsGot as [d|e]|];
    simpl; (split; [done|]); intros r error Hs Hg; try discriminate.
  by injection Hg as <-.
Qed.

(** X30. The emails panel of the debug dashboard draws the first five
    emails at most; the cards and the "... and n more" line together
    account for the total, and the line is there exactly when the total
    exceeds five. *)
Theorem renderEmails_first_five (st : DebugDashboard.State) (total : nat)
    (cards : list obj) (more : option nat)
    (Hpanel : DebugDashboard.renderEmails st =
                DebugDashboard.Listing total cards more) :
  (0 < total)%nat /\ (length cards <= 5)%nat /\
  (length cards + default 0%nat more = total)%nat /\
  (more = None <-> (total <= 5)%nat) /\
  exists all : list obj,
    DebugDashboard.emails st = Some {| resp_emails := Some all |} /\
    cards `prefix_of` all /\ length all = total.
Proof.
  unfold DebugDashboard.renderEmails in Hpanel.
  destruct (DebugDashboard.emails st) as [[[[|e l]|]]|]; try discriminate.
  cbv zeta in Hpanel.
  assert (Hpos : (0 < length (e :: l))%nat) by (simpl; lia).
  remember (e :: l) as all eqn:Hall. clear Hall.
  injection Hpanel as <- <- <-.
  assert (Hlen : length (take 5 all) = Nat.min 5 (length all))
    by apply length_take.
  split; [exact Hpos|]. split; [lia|].
  destruct (5 <? length all)%nat eqn:Hlt.
  - apply Nat.ltb_lt in Hlt. split; [simpl; lia|].
    split; [split; [discriminate | lia]|].
    exists all. split; [done|]. split; [apply prefix_take | done].
  - apply Nat.ltb_ge in Hlt. split; [simpl; lia|].
    split; [split; [lia | done]|].
    exists all. split; [done|]. split; [apply prefix_take | done].
Qed.

Lemma renderEmails_first_five_witness :
  DebugDashboard.renderEmails
    {| DebugDashboard.database := None; DebugDashboard.ollama := None;
       DebugDashboard.status := None;
       DebugDashboard.emails :=
         Some {| resp_emails := Some (replicate 7 Scenario.m1) |};
       DebugDashboard.loading := false |} =
    DebugDashboard.Listing 7 (replicate 5 Scenario.m1) (Some 2%nat) /\
  (length (replicate 5 Scenario.m1) + default 0%nat (Some 2%nat) = 7)%nat.
Proof.
  split; [reflexivity|].
  pose proof (renderEmails_first_five
                {| DebugDashboard.database := None;
                   DebugDashboard.ollama := None;
                   DebugDashboard.status := None;
                   DebugDashboard.emails :=
                     Some {| resp_emails := Some (replicate 7 Scenario.m1) |};
                   DebugDashboard.loading := false |}
                7 (replicate 5 Scenario.m1) (Some 2%nat) eq_refl)
    as (_ & _ & Hsum & _).
  exact Hsum.
Defined.

(** ** The lines of a summary *)

Section Lines.
Variable sep : N.



End Lines.

(** A summary of one plain sentence is drawn as one bullet paragraph. *)
Lemma plain_summary_rendered :
  EmailModal.renderSummary (VStr (js "Approve by Friday")) =
    Normal (EmailModal.SummaryLines
              [EmailModal.BulletItem (js "Approve by Friday")]).
Proof. reflexivity. Qed.



